(** * DSSATTools.weather: the [Weather] class, embedded and verified

    The module under verification is [src/DSSATTools/weather.py].  It holds
    the parameter catalogue ([PARS_DESC], [PARS_STATION], [PARS_DATA],
    [MANDATORY_DATA]) and the class [Weather] with its constructor
    [__init__] and its method [write].

    Modelling choices, all read off the source:
    - a pandas [DataFrame] is an index together with an ordered list of named
      columns; a column (a pandas [Series]) is either of dtype [float64]
      (its missing value is NaN) or of dtype [datetime64];
    - Python exceptions are values of type [exn]; a failed [assert] is
      [AssertionError] with the message of the source;
    - objects live in a store: [df.copy()] allocates, the in-place methods
      ([data[value] = ...], [drop(inplace=True)], [set_index(inplace=True)])
      update the object a reference points to;
    - the file system is a finite map from paths to file contents;
    - the functions of [DSSATTools.base.formater] are an interface
      ([Formater]): the module only calls them.

    What the model covers: column labels are strings, pairwise distinct in a
    frame that pandas built ([wf_frame]); numbers are exact rationals or NaN;
    a datetime value is a valid timestamp (no NaT); text is ASCII. *)

From Stdlib Require Import ZArith QArith String Ascii List Lia Sorted.
From stdpp Require Import base option list gmap strings.

(* stdpp's solvers clear hypotheses that may be gone already. *)
Set Warnings "-clear-no-such-hyp,-abstract-large-number".

Local Open Scope string_scope.
Local Open Scope Z_scope.

(** ** Python exceptions *)

Inductive exn : Type :=
| AssertionError (msg : string)
| KeyError (key : string)
| TypeError
| ValueError
| AttributeError
| ReferenceError.

(** ** Timestamps

    A [datetime64] value, read through the fields the module uses: the
    calendar date and the time of day (in nanoseconds).  The order is the
    chronological one. *)

Record Timestamp : Type := mkTimestamp {
  ts_year : Z;
  ts_month : Z;
  ts_day : Z;
  ts_nanos : N
}.

(** [datetime(year, month, day)]: midnight of that calendar day. *)
Definition datetime (year month day : Z) : Timestamp :=
  mkTimestamp year month day 0%N.

Definition ts_compare (a b : Timestamp) : comparison :=
  match ts_year a ?= ts_year b with
  | Eq =>
      match ts_month a ?= ts_month b with
      | Eq =>
          match ts_day a ?= ts_day b with
          | Eq => (ts_nanos a ?= ts_nanos b)%N
          | c => c
          end
      | c => c
      end
  | c => c
  end.

Definition ts_leb (a b : Timestamp) : bool :=
  match ts_compare a b with Gt => false | _ => true end.

Definition ts_geb (a b : Timestamp) : bool := ts_leb b a.

(** The calendar date of a timestamp, as [datetime.date]. *)
Definition date_of (t : Timestamp) : Z * Z * Z := (ts_year t, ts_month t, ts_day t).

Definition date_leb (d e : Z * Z * Z) : bool :=
  let '(y1, m1, d1) := d in
  let '(y2, m2, d2) := e in
  ts_leb (datetime y1 m1 d1) (datetime y2 m2 d2).

(** ** Series and data frames *)

Inductive Series : Type :=
| Float64 (values : list (option Q))
| Datetime64 (values : list Timestamp).

Definition series_len (s : Series) : nat :=
  match s with
  | Float64 l => length l
  | Datetime64 l => length l
  end.

(** [pd.api.types.is_datetime64_any_dtype] *)
Definition is_datetime64_any_dtype (s : Series) : bool :=
  match s with
  | Datetime64 _ => true
  | Float64 _ => false
  end.

Record DataFrame : Type := mkDataFrame {
  index : Series;
  cols : list (string * Series)
}.

(** [data.columns] *)
Definition columns (data : DataFrame) : list string := map fst (cols data).

Fixpoint assoc {A : Type} (key : string) (l : list (string * A)) : option A :=
  match l with
  | [] => None
  | (k, v) :: r => if String.eqb k key then Some v else assoc key r
  end.

Fixpoint assoc_set {A : Type} (key : string) (v : A) (l : list (string * A))
  : list (string * A) :=
  match l with
  | [] => [(key, v)]
  | (k, w) :: r =>
      if String.eqb k key then (k, v) :: r else (k, w) :: assoc_set key v r
  end.

Definition assoc_del {A : Type} (key : string) (l : list (string * A))
  : list (string * A) :=
  List.filter (fun kv => negb (String.eqb (fst kv) key)) l.

(** [data[key]]: the column, or [KeyError]. *)
Definition frame_getitem (key : string) (data : DataFrame) : exn + Series :=
  match assoc key (cols data) with
  | Some s => inr s
  | None => inl (KeyError key)
  end.

(** [data[key] = s]: an existing column keeps its position, a new one is
    appended on the right. *)
Definition frame_setitem (key : string) (s : Series) (data : DataFrame) : DataFrame :=
  mkDataFrame (index data) (assoc_set key s (cols data)).

(** [data.drop(columns=[key])] on a frame that has the column. *)
Definition frame_drop (key : string) (data : DataFrame) : DataFrame :=
  mkDataFrame (index data) (assoc_del key (cols data)).

(** [data.set_index(key)] on a frame that has the column: the column becomes
    the index and is no longer a column. *)
Definition frame_set_index (key : string) (s : Series) (data : DataFrame) : DataFrame :=
  mkDataFrame s (assoc_del key (cols data)).

(** A frame as pandas builds it: distinct column labels, and every column as
    long as the index. *)
Definition wf_frame (data : DataFrame) : Prop :=
  NoDup (columns data) /\
  Forall (fun kv => series_len (snd kv) = series_len (index data)) (cols data).

(** *** Element-wise comparisons *)

(** IEEE comparison: false as soon as one side is NaN. *)
Definition float_le (x y : option Q) : bool :=
  match x, y with
  | Some a, Some b => Qle_bool a b
  | _, _ => false
  end.

Fixpoint zip_with_bool {A B : Type} (f : A -> B -> bool) (l : list A) (k : list B)
  : list bool :=
  match l, k with
  | a :: l', b :: k' => f a b :: zip_with_bool f l' k'
  | _, _ => []
  end.

(** [a <= b] on two series: element by element; series of different dtypes
    do not compare, nor do series of different lengths. *)
Definition series_le (a b : Series) : exn + list bool :=
  if negb (Nat.eqb (series_len a) (series_len b)) then inl ValueError
  else
    match a, b with
    | Float64 l, Float64 k => inr (zip_with_bool float_le l k)
    | Datetime64 l, Datetime64 k => inr (zip_with_bool ts_leb l k)
    | _, _ => inl TypeError
    end.

(** [a >= c] for a number [c] *)
Definition series_ge_num (a : Series) (c : Q) : exn + list bool :=
  match a with
  | Float64 l => inr (map (fun x => float_le (Some c) x) l)
  | Datetime64 _ => inl TypeError
  end.

(** [a <= c] for a number [c] *)
Definition series_le_num (a : Series) (c : Q) : exn + list bool :=
  match a with
  | Float64 l => inr (map (fun x => float_le x (Some c)) l)
  | Datetime64 _ => inl TypeError
  end.

(** [m & n] on boolean series *)
Definition series_and (m n : list bool) : list bool := zip_with_bool andb m n.

(** Python's builtin [all] *)
Definition all (l : list bool) : bool := forallb (fun b => b) l.

(** ** The three layers of effects

    - [exn + A]: a pandas operation that returns or raises;
    - [L A]: a block of statements working on the object bound to the local
      name [data]; the object is mutated in place, so it is threaded through,
      and it survives an exception;
    - [M A]: a method, running against the object store and the file
      system. *)

#[global] Instance exn_ret : MRet (sum exn) := fun A x => inr x.
#[global] Instance exn_bind : MBind (sum exn) := fun A B f m =>
  match m with
  | inl e => inl e
  | inr x => f x
  end.

Definition L (A : Type) : Type := DataFrame -> (exn + A) * DataFrame.

#[global] Instance L_ret : MRet L := fun A x data => (inr x, data).
#[global] Instance L_bind : MBind L := fun A B f m data =>
  match m data with
  | (inl e, data') => (inl e, data')
  | (inr x, data') => f x data'
  end.

Definition L_lift {A : Type} (r : exn + A) : L A := fun data => (r, data).
Definition L_gets {A : Type} (f : DataFrame -> A) : L A := fun data => (inr (f data), data).
Definition L_modify (f : DataFrame -> DataFrame) : L unit := fun data => (inr tt, f data).

(** [assert c, msg] *)
Definition L_assert (c : bool) (msg : string) : L unit :=
  L_lift (if c then inr tt else inl (AssertionError msg)).

Fixpoint L_for {A : Type} (l : list A) (body : A -> L unit) : L unit :=
  match l with
  | [] => mret tt
  | x :: r => body x;; L_for r body
  end.

(** [data[key]] *)
Definition getitem (key : string) : L Series :=
  fun data => (frame_getitem key data, data).

(** [data[key] = s] *)
Definition setitem (key : string) (s : Series) : L unit :=
  L_modify (frame_setitem key s).

Definition str_in (x : string) (l : list string) : bool :=
  existsb (String.eqb x) l.

#[global] Arguments str_in : simpl never.

(** [data.drop(columns=[key], inplace=True)] *)
Definition drop (key : string) : L unit :=
  present ← L_gets (fun data => str_in key (columns data));
  if (present : bool) then L_modify (frame_drop key) else L_lift (inl (KeyError key)).

(** [data.set_index(key, inplace=True)] *)
Definition set_index (key : string) : L unit :=
  s ← getitem key;
  L_modify (frame_set_index key s).

(** ** The parameter catalogue *)

Definition PARS_DESC : list (string * string) :=
  [ ("INSI", "Institute and site code");
    ("LAT", "Latitude, degrees (decimals)");
    ("LONG", "Longitude, degrees (decimals)");
    ("ELEV", "Elevation, m");
    ("TAV", "Temperature average for whole year [long-term], C");
    ("AMP", "Temperature amplitude (range), monthly averages [long-term], C");
    ("REFHT", "Reference height for weather measurements, m");
    ("WNDHT", "Reference height for windspeed measurements, m");
    ("DATE", "Date, year + days from Jan. 1");
    ("SRAD", "Daily solar radiation, MJ m-2 day-1");
    ("TMAX", "Daily temperature maximum, C");
    ("TMIN", "Daily temperature minimum, C");
    ("RAIN", "Daily rainfall (incl. snow), mm day-1");
    ("DEWP", "Daily dewpoint temperature average, C");
    ("WIND", "Daily wind speed (km d-1)");
    ("PAR", "Daily photosynthetic radiation, moles m-2 day-1");
    ("EVAP", "Daily pan evaporation (mm d-1)");
    ("RHUM", "Relative humidity average, %") ].

Definition PARS_STATION : list string :=
  ["INSI"; "LAT"; "LONG"; "ELEV"; "TAV"; "AMP"; "REFHT"; "WNDHT"].

Definition PARS_DATA : list string :=
  List.filter (fun i => negb (str_in i PARS_STATION)) (map fst PARS_DESC).

Definition MANDATORY_DATA : list string := ["TMIN"; "TMAX"; "RAIN"; "SRAD"].

(** [", ".join(l)] *)
Fixpoint join (sep : string) (l : list string) : string :=
  match l with
  | [] => ""
  | [x] => x
  | x :: r => x +:+ sep +:+ join sep r
  end.

(** The messages of the assertions of [__init__]. *)
Definition msg_invalid (value : string) : string :=
  value +:+ " is not a valid variable name".
Definition msg_mandatory (names : list string) : string :=
  "Data must contain at least " +:+ join ", " names +:+ " variables".
Definition msg_temp : string := "TMAX < TMIN at some point in the series".
Definition msg_rhum : string := "0 <= RHUM <= 100 must be accomplished".
Definition msg_rain : string := "0 <= RAIN must be accomplished".
Definition msg_srad : string := "0 <= SRAD must be accomplished".
Definition msg_date : string := "At least one of the data columns must be a date".

(** ** [Weather.__init__]: the statements on the copy [data] *)

(** The loop over [pars.items()]. *)
Definition rename_columns (pars : list (string * string)) : L unit :=
  L_for pars (fun kv =>
    let key := fst kv in
    let value := snd kv in
    L_assert (str_in value PARS_DATA) (msg_invalid value);;
    if str_in value PARS_DATA && negb (str_in key PARS_DATA) then
      s ← getitem key;
      setitem value s;;
      drop key
    else mret tt).

(** [assert all(map(lambda x: x in data.columns, MANDATORY_DATA)), ...] *)
Definition check_mandatory : L unit :=
  names ← L_gets columns;
  L_assert (all (map (fun x => str_in x names) MANDATORY_DATA))
           (msg_mandatory MANDATORY_DATA).

(** "A really quick QC check": four checks, one after the other. *)

(** [TEMP_QC = all(data.TMIN <= data.TMAX); assert TEMP_QC, ...] *)
Definition qc_temp : L unit :=
  TMIN ← getitem "TMIN";
  TMAX ← getitem "TMAX";
  cmp ← L_lift (series_le TMIN TMAX);
  let TEMP_QC := all cmp in
  L_assert TEMP_QC msg_temp.

(** [if 'RHUM' in data.columns: ...] *)
Definition qc_rhum : L unit :=
  names ← L_gets columns;
  if str_in "RHUM" names then
    RHUM ← getitem "RHUM";
    lo ← L_lift (series_ge_num RHUM 0);
    hi ← L_lift (series_le_num RHUM 100);
    let RHUM_QC := all (series_and lo hi) in
    L_assert RHUM_QC msg_rhum
  else mret tt.

(** [RAIN_QC = all(data.RAIN >= 0); assert RAIN_QC, ...] *)
Definition qc_rain : L unit :=
  RAIN ← getitem "RAIN";
  cmp ← L_lift (series_ge_num RAIN 0);
  let RAIN_QC := all cmp in
  L_assert RAIN_QC msg_rain.

(** [if 'SRAD' in data.columns: ...] *)
Definition qc_srad : L unit :=
  names ← L_gets columns;
  if str_in "SRAD" names then
    SRAD ← getitem "SRAD";
    cmp ← L_lift (series_ge_num SRAD 0);
    let SRAD_QC := all cmp in
    L_assert SRAD_QC msg_srad
  else mret tt.

Definition quality_control : L unit :=
  qc_temp;; qc_rhum;; qc_rain;; qc_srad.

(** The value of the local [DATE_COL]: [False], [True] or a column label. *)
Inductive pyobj : Type :=
| PyBool (b : bool)
| PyStr (s : string).

(** Truth value of an object, as [assert] takes it: the empty string is
    false. *)
Definition truthy (v : pyobj) : bool :=
  match v with
  | PyBool b => b
  | PyStr s => negb (String.eqb s "")
  end.

(** [for col in data.columns: if is_datetime64_any_dtype(data[col]): DATE_COL = col] *)
Fixpoint scan_columns (names : list string) (DATE_COL : pyobj) : L pyobj :=
  match names with
  | [] => mret DATE_COL
  | col :: r =>
      s ← getitem col;
      scan_columns r (if is_datetime64_any_dtype s then PyStr col else DATE_COL)
  end.

(** "Check date column" *)
Definition check_date_column : L unit :=
  names ← L_gets columns;
  DATE_COL ← scan_columns names (PyBool false);
  idx ← L_gets index;
  let DATE_COL := if is_datetime64_any_dtype idx then PyBool true else DATE_COL in
  L_assert (truthy DATE_COL) msg_date;;
  match DATE_COL with
  | PyStr col => set_index col
  | PyBool _ => mret tt
  end.

Definition init_data (pars : list (string * string)) : L unit :=
  rename_columns pars;;
  check_mandatory;;
  quality_control;;
  check_date_column.

(** ** Strings: slices, [upper], [str], [zfill], [os.path.join] *)

(** [s[:n]] *)
Fixpoint slice_to (n : nat) (s : string) : string :=
  match n, s with
  | S n', String c r => String c (slice_to n' r)
  | _, _ => ""
  end.

(** [s[n:]] *)
Fixpoint slice_from (n : nat) (s : string) : string :=
  match n, s with
  | S n', String _ r => slice_from n' r
  | _, _ => s
  end.

Definition upper_char (c : ascii) : ascii :=
  let n := nat_of_ascii c in
  if (97 <=? n)%nat && (n <=? 122)%nat then ascii_of_nat (n - 32) else c.

(** [s.upper()], on ASCII text *)
Fixpoint upper (s : string) : string :=
  match s with
  | EmptyString => ""
  | String c r => String (upper_char c) (upper r)
  end.

Definition digit_char (d : Z) : ascii := ascii_of_nat (48 + Z.to_nat d).

Fixpoint digits_go (fuel : nat) (n : Z) (acc : string) : string :=
  match fuel with
  | O => acc
  | S fuel' =>
      let acc' := String (digit_char (n mod 10)) acc in
      if n / 10 =? 0 then acc' else digits_go fuel' (n / 10) acc'
  end.

(** [str(n)] for an integer: the fuel covers every digit. *)
Definition str (n : Z) : string :=
  if n <? 0 then "-" +:+ digits_go (S (Z.to_nat (Z.log2 (- n)))) (- n) ""
  else digits_go (S (Z.to_nat (Z.log2 n))) n "".

(** [s.zfill(w)] for an unsigned numeral *)
Definition zfill (w : nat) (s : string) : string :=
  String.concat "" (repeat "0" (w - String.length s)) +:+ s.

Definition is_leap (y : Z) : bool :=
  ((y mod 4 =? 0) && negb (y mod 100 =? 0)) || (y mod 400 =? 0).

Definition days_in_month (y m : Z) : Z :=
  if m =? 2 then (if is_leap y then 29 else 28)
  else if (m =? 4) || (m =? 6) || (m =? 9) || (m =? 11) then 30
  else 31.

Definition day_of_year (t : Timestamp) : Z :=
  fold_left Z.add
    (map (fun k => days_in_month (ts_year t) (Z.of_nat k))
         (seq 1 (Z.to_nat (ts_month t - 1))))
    (ts_day t).

(** [t.strftime('%y%j')]: two digits of the year, three of the day of the
    year. *)
Definition strftime_yj (t : Timestamp) : string :=
  zfill 2 (str (ts_year t mod 100)) +:+ zfill 3 (str (day_of_year t)).

Definition starts_with_sep (s : string) : bool :=
  match s with
  | String c _ => Ascii.eqb c "/"
  | EmptyString => false
  end.

Fixpoint ends_with_sep (s : string) : bool :=
  match s with
  | EmptyString => false
  | String c EmptyString => Ascii.eqb c "/"
  | String _ r => ends_with_sep r
  end.

(** [os.path.join(a, b)] (posixpath) *)
Definition path_join (a b : string) : string :=
  if starts_with_sep b then b
  else if String.eqb a "" || ends_with_sep a then a +:+ b
  else a +:+ "/" +:+ b.

Definition newline : string := String (ascii_of_nat 10) "".

(** ** The object store and the file system *)

Definition loc : Type := nat.

Record World : Type := mkWorld {
  frames : list DataFrame;
  files : gmap string string
}.

Definition M (A : Type) : Type := World -> (exn + A) * World.

#[global] Instance M_ret : MRet M := fun A x w => (inr x, w).
#[global] Instance M_bind : MBind M := fun A B f m w =>
  match m w with
  | (inl e, w') => (inl e, w')
  | (inr x, w') => f x w'
  end.

Definition M_lift {A : Type} (r : exn + A) : M A := fun w => (r, w).

Fixpoint M_for {A : Type} (l : list A) (body : A -> M unit) : M unit :=
  match l with
  | [] => mret tt
  | x :: r => body x;; M_for r body
  end.

(** The frame a reference points to.  A Python name always refers to a live
    object; [ReferenceError] is what the model answers to a reference that
    the store does not hold. *)
Definition load (l : loc) : M DataFrame := fun w =>
  match frames w !! l with
  | Some t => (inr t, w)
  | None => (inl ReferenceError, w)
  end.

(** A new frame object. *)
Definition new_frame (t : DataFrame) : M loc := fun w =>
  (inr (length (frames w)), mkWorld (frames w ++ [t]) (files w)).

(** [df.copy()] *)
Definition copy (df : loc) : M loc :=
  t ← load df;
  new_frame t.

(** Statements that mutate the object at [l] in place. *)
Definition in_place {A : Type} (l : loc) (m : L A) : M A := fun w =>
  match frames w !! l with
  | Some t =>
      let '(r, t') := m t in
      (r, mkWorld (<[l := t']> (frames w)) (files w))
  | None => (inl ReferenceError, w)
  end.

(** [with open(path, 'w') as f: f.write(text)].  The directory step of
    [write] ([os.path.exists], [os.mkdir]) and the failures of [open] belong
    to the operating system and are outside the model: a write creates the
    file or replaces its content. *)
Definition write_file (path text : string) : M unit := fun w =>
  (inr tt, mkWorld (frames w) (<[path := text]> (files w))).

(** ** The class [Weather] *)

Record Weather : Type := mkWeather {
  description : string;
  INSI : string;
  LAT : Q;
  LON : Q;
  ELEV : Q;
  TAV : Q;
  AMP : Q;
  REFHT : Q;
  WNDHT : Q;
  data : loc
}.

(** The constructor.  The closing [assert isinstance(data, DataFrame)] holds
    by typing and leaves no trace here. *)
Definition __init__ (df : loc) (pars : list (string * string)) (lat lon elev : Q)
  : M Weather :=
  let self_description := "Weather station" in
  let self_INSI := "WSTA" in
  let self_TAV := 17%Q in
  let self_AMP := 10%Q in
  let self_REFHT := 2%Q in
  let self_WNDHT := 10%Q in
  data ← copy df;
  in_place data (init_data pars);;
  let self_INSI := upper (slice_to 4 self_INSI) in
  mret (mkWeather self_description self_INSI lat lon elev
                  self_TAV self_AMP self_REFHT self_WNDHT data).

(** ** [Weather.write] *)

(** A value handed to the formatting functions. *)
Inductive pyval : Type :=
| VStr (s : string)
| VFloat (x : option Q)
| VTime (t : Timestamp).

(** The functions imported from [DSSATTools.base.formater]. *)
Class Formater : Type := {
  weather_data : list pyval -> string;
  weather_data_header : list string -> string;
  weather_station : list pyval -> string
}.

(** The [management] keyword argument: an object with a date-like
    [sim_start]. *)
Record Management : Type := mkManagement { sim_start : Timestamp }.

Definition series_values (s : Series) : list pyval :=
  match s with
  | Float64 l => map VFloat l
  | Datetime64 l => map VTime l
  end.

(** [index >= t] for a timestamp [t] *)
Definition index_ge (idx : Series) (t : Timestamp) : exn + list bool :=
  match idx with
  | Datetime64 l => inr (map (fun x => ts_geb x t) l)
  | Float64 _ => inl TypeError
  end.

(** [index.year] *)
Definition index_year (idx : Series) : exn + list Z :=
  match idx with
  | Datetime64 l => inr (map ts_year l)
  | Float64 _ => inl AttributeError
  end.

(** [.unique()]: the distinct values, in order of first appearance *)
Fixpoint unique (l : list Z) : list Z :=
  match l with
  | [] => []
  | x :: r => x :: List.filter (fun y => negb (y =? x)) (unique r)
  end.

Fixpoint mask_filter {A : Type} (mask : list bool) (l : list A) : list A :=
  match mask, l with
  | b :: m, x :: r => if b then x :: mask_filter m r else mask_filter m r
  | _, _ => []
  end.

Definition series_mask (mask : list bool) (s : Series) : Series :=
  match s with
  | Float64 l => Float64 (mask_filter mask l)
  | Datetime64 l => Datetime64 (mask_filter mask l)
  end.

(** [data.loc[mask]]: the rows where the mask holds, in the order of the
    frame. *)
Definition loc_mask (mask : list bool) (data : DataFrame) : DataFrame :=
  mkDataFrame (series_mask mask (index data))
              (map (fun kv => (fst kv, series_mask mask (snd kv))) (cols data)).

Definition first_value (l : list pyval) : pyval :=
  match l with
  | x :: _ => x
  | [] => VFloat None
  end.

Fixpoint rows_of (labels : list pyval) (cs : list (list pyval))
  : list (pyval * list pyval) :=
  match labels with
  | [] => []
  | day :: r => (day, map first_value cs) :: rows_of r (map (@tail pyval) cs)
  end.

(** [df.iterrows()]: the pairs (index label, values of the row), top to
    bottom. *)
Definition iterrows (df : DataFrame) : list (pyval * list pyval) :=
  rows_of (series_values (index df)) (map (fun kv => series_values (snd kv)) (cols df)).

(** [day.strftime('%y%j')] on an index label *)
Definition label_strftime (day : pyval) : exn + string :=
  match day with
  | VTime t => inr (strftime_yj t)
  | _ => inl AttributeError
  end.

Fixpoint exn_map {A B : Type} (f : A -> exn + B) (l : list A) : exn + list B :=
  match l with
  | [] => inr []
  | x :: r => y ← f x; ys ← exn_map f r; mret (y :: ys)
  end.

Section Write.
Context `{Formater}.

(** One data line: [weather_data([day] + list(fields))]. *)
Definition data_line (row : pyval * list pyval) : exn + string :=
  day ← label_strftime (fst row);
  mret (weather_data (VStr day :: snd row)).

(** The name of the file of a year. *)
Definition file_name (self : Weather) (year : Z) : string :=
  let month := "01" in
  INSI self +:+ slice_from 2 (str year) +:+ month +:+ ".WTH".

(** The text before the data lines. *)
Definition file_head (self : Weather) (names : list string) : string :=
  ("*WEATHER DATA : " +:+ description self +:+ newline +:+ newline)
  +:+ ("@ INSI      LAT     LONG  ELEV   TAV   AMP REFHT WNDHT" +:+ newline)
  +:+ weather_station
        [VStr (INSI self); VFloat (Some (LAT self)); VFloat (Some (LON self));
         VFloat (Some (ELEV self)); VFloat (Some (TAV self));
         VFloat (Some (AMP self)); VFloat (Some (REFHT self));
         VFloat (Some (WNDHT self))]
  +:+ weather_data_header names.

(** The body of the loop over the years. *)
Definition write_year (self : Weather) (folder : string) (year : Z) : M unit :=
  self_data ← load (data self);
  years ← M_lift (index_year (index self_data));
  let df := loc_mask (map (fun y => y =? year) years) self_data in
  let filename := file_name self year in
  let outstr := file_head self (columns self_data) in
  lines ← M_lift (exn_map data_line (iterrows df));
  let outstr := outstr +:+ String.concat "" lines in
  write_file (path_join folder filename) outstr.

Definition write (self : Weather) (folder : string) (management : option Management)
  : M Weather :=
  self ←
    match management with
    | Some man =>
        let sim_start :=
          datetime (ts_year (sim_start man)) (ts_month (sim_start man))
                   (ts_day (sim_start man)) in
        self_data ← load (data self);
        mask ← M_lift (index_ge (index self_data) sim_start);
        l ← new_frame (loc_mask mask self_data);
        mret (mkWeather (description self) (INSI self) (LAT self) (LON self)
                        (ELEV self) (TAV self) (AMP self) (REFHT self)
                        (WNDHT self) l)
    | None => mret self
    end;
  self_data ← load (data self);
  years ← M_lift (index_year (index self_data));
  M_for (unique years) (write_year self folder);;
  mret self.
End Write.


(** * Notions used by the specifications *)

(** The entries of the mapping that rename a column: the target is a data
    variable and the source is not one. *)
Definition renames (kv : string * string) : bool :=
  str_in (snd kv) PARS_DATA && negb (str_in (fst kv) PARS_DATA).

Definition renamed_keys (pars : list (string * string)) : list string :=
  map fst (List.filter renames pars).

Definition renamed_targets (pars : list (string * string)) : list string :=
  map snd (List.filter renames pars).

(** The table after the column mapping (step 2 of [build]). *)
Definition mapped (pars : list (string * string)) (t : DataFrame) : DataFrame :=
  snd (rename_columns pars t).

(** A mapping the loop accepts: a dictionary (distinct keys) whose values are
    data variables and whose renamed keys are columns of the table. *)
Definition valid_mapping (pars : list (string * string)) (t : DataFrame) : Prop :=
  NoDup (map fst pars) /\
  Forall (fun kv => snd kv ∈ PARS_DATA /\ (fst kv ∈ PARS_DATA \/ fst kv ∈ columns t)) pars.


(** *** Quality control, row by row *)

(** The column [name] of [d] is a [float64] column with the values [l]. *)
Definition float_col (d : DataFrame) (name : string) (l : list (option Q)) : Prop :=
  assoc name (cols d) = Some (Float64 l).

(** What each rule asks of a row.  A missing value (NaN) meets none. *)
Definition temp_row_ok (x y : option Q) : Prop :=
  exists p q, x = Some p /\ y = Some q /\ (p <= q)%Q.

Definition rhum_ok (x : option Q) : Prop :=
  exists p, x = Some p /\ (0 <= p)%Q /\ (p <= 100)%Q.

Definition nonneg (x : option Q) : Prop :=
  exists p, x = Some p /\ (0 <= p)%Q.

(** The four rules, in the order of the source. *)
Inductive rule : Type := TEMP_QC | RHUM_QC | RAIN_QC | SRAD_QC.

Definition rule_msg (r : rule) : string :=
  match r with
  | TEMP_QC => msg_temp
  | RHUM_QC => msg_rhum
  | RAIN_QC => msg_rain
  | SRAD_QC => msg_srad
  end.

Definition rule_rank (r : rule) : nat :=
  match r with
  | TEMP_QC => 0
  | RHUM_QC => 1
  | RAIN_QC => 2
  | SRAD_QC => 3
  end.

(** Every row meets the rule (the rules on RHUM and SRAD apply if the column
    is present). *)
Definition satisfied (r : rule) (d : DataFrame) : Prop :=
  match r with
  | TEMP_QC =>
      exists a b, float_col d "TMIN" a /\ float_col d "TMAX" b /\ Forall2 temp_row_ok a b
  | RHUM_QC =>
      "RHUM" ∉ columns d \/ exists l, float_col d "RHUM" l /\ Forall rhum_ok l
  | RAIN_QC =>
      exists l, float_col d "RAIN" l /\ Forall nonneg l
  | SRAD_QC =>
      "SRAD" ∉ columns d \/ exists l, float_col d "SRAD" l /\ Forall nonneg l
  end.

(** Some row breaks the rule. *)
Definition violated (r : rule) (d : DataFrame) : Prop :=
  match r with
  | TEMP_QC =>
      exists a b (i : nat) x y,
        float_col d "TMIN" a /\ float_col d "TMAX" b /\
        a !! i = Some x /\ b !! i = Some y /\ ~ temp_row_ok x y
  | RHUM_QC =>
      exists l, float_col d "RHUM" l /\ Exists (fun x => ~ rhum_ok x) l
  | RAIN_QC =>
      exists l, float_col d "RAIN" l /\ Exists (fun x => ~ nonneg x) l
  | SRAD_QC =>
      exists l, float_col d "SRAD" l /\ Exists (fun x => ~ nonneg x) l
  end.

(** Row [i] has a minimum temperature above the maximum. *)
Definition temp_exceeds (d : DataFrame) : Prop :=
  exists a b (i : nat) p q,
    float_col d "TMIN" a /\ float_col d "TMAX" b /\
    a !! i = Some (Some p) /\ b !! i = Some (Some q) /\ (q < p)%Q.

(** The column [name] holds a missing value. *)
Definition has_nan (d : DataFrame) (name : string) : Prop :=
  exists l, float_col d name l /\ None ∈ l.

(** An exception of the quality-control step: one of its four assertions, or
    the [TypeError] of a comparison it evaluates. *)
Definition qc_error (e : exn) : Prop :=
  e = TypeError \/ exists r, e = AssertionError (rule_msg r).

(** Every mandatory variable is a column. *)
Definition has_mandatory (d : DataFrame) : Prop :=
  forall m, m ∈ MANDATORY_DATA -> m ∈ columns d.

(** The mandatory variables that are not columns. *)
Definition missing_mandatory (d : DataFrame) : list string :=
  List.filter (fun m => negb (str_in m (columns d))) MANDATORY_DATA.

(** *** The date source *)

(** The last, and the first, column of dtype [datetime64], left to right. *)
Fixpoint last_datetime (l : list (string * Series)) : option (string * Series) :=
  match l with
  | [] => None
  | kv :: r =>
      match last_datetime r with
      | Some x => Some x
      | None => if is_datetime64_any_dtype (snd kv) then Some kv else None
      end
  end.

Fixpoint first_datetime (l : list (string * Series)) : option (string * Series) :=
  match l with
  | [] => None
  | kv :: r => if is_datetime64_any_dtype (snd kv) then Some kv else first_datetime r
  end.

Inductive DateSource : Type :=
| FromIndex
| FromColumn (name : string)
| MissingDateColumn.

(** The resolution in the words of the specification: the index if it is
    datetime-typed, else the FIRST datetime-typed column, else none. *)
Definition date_source_spec (d : DataFrame) : DateSource :=
  if is_datetime64_any_dtype (index d) then FromIndex
  else
    match first_datetime (cols d) with
    | Some kv => FromColumn (fst kv)
    | None => MissingDateColumn
    end.

(** The table the specification's resolution would leave. *)
Definition resolve_spec (d : DataFrame) : option DataFrame :=
  if is_datetime64_any_dtype (index d) then Some d
  else
    match first_datetime (cols d) with
    | Some kv => Some (frame_set_index (fst kv) (snd kv) d)
    | None => None
    end.

(** *** The object [__init__] returns *)

Definition new_weather (lat lon elev : Q) (l : loc) : Weather :=
  mkWeather "Weather station" "WSTA" lat lon elev 17 10 2 10 l.

(** The table reaches the date step: the mapping, the mandatory-variable
    check and the quality control pass, and leave the table [d]. *)
Definition reaches_date_step (pars : list (string * string)) (t d : DataFrame) : Prop :=
  rename_columns pars t = (inr tt, d) /\
  check_mandatory d = (inr tt, d) /\
  quality_control d = (inr tt, d).

(** The date source the constructor settles on: the index if it is
    datetime-typed, else the LAST datetime-typed column, provided its label
    is not the empty string (an empty label is a false [DATE_COL]). *)
Definition date_source (d : DataFrame) : DateSource :=
  if is_datetime64_any_dtype (index d) then FromIndex
  else
    match last_datetime (cols d) with
    | Some kv => if String.eqb (fst kv) "" then MissingDateColumn else FromColumn (fst kv)
    | None => MissingDateColumn
    end.

(** *** The error taxonomy of the specification

    Every failure of [__init__] is an [AssertionError]; the specification
    names them after the assertion that fails. *)
Definition InvalidVariableName (value : string) : exn :=
  AssertionError (msg_invalid value).
Definition MissingMandatoryVariable (names : list string) : exn :=
  AssertionError (msg_mandatory names).
Definition QualityControlError (r : rule) : exn :=
  AssertionError (rule_msg r).
Definition MissingDateColumnError : exn :=
  AssertionError msg_date.

(** A checker for [wf_frame]. *)
Fixpoint distinct (l : list string) : bool :=
  match l with
  | [] => true
  | x :: r => negb (str_in x r) && distinct r
  end.

Definition wf_frameb (d : DataFrame) : bool :=
  distinct (columns d) &&
  forallb (fun kv => Nat.eqb (series_len (snd kv)) (series_len (index d))) (cols d).

(** *** Sample inputs *)

Definition days (l : list (Z * Z * Z)) : list Timestamp :=
  map (fun d => let '(y, m, dd) := d in datetime y m dd) l.

(** The table of the module docstring, cut to three days, with one more
    column ([cloud]) that the mapping does not mention. *)
Definition sample_table : DataFrame :=
  mkDataFrame
    (Datetime64 (days [(2000, 12, 30); (2000, 12, 31); (2001, 1, 1)]))
    [ ("tn", Float64 [Some 10%Q; Some 11.5%Q; Some 9%Q]);
      ("rad", Float64 [Some 15%Q; Some 14.2%Q; Some 0%Q]);
      ("prec", Float64 [Some 0%Q; Some 3.4%Q; Some 0%Q]);
      ("rh", Float64 [Some 80%Q; Some 100%Q; Some 55.5%Q]);
      ("cloud", Float64 [Some 1%Q; None; Some 3%Q]);
      ("TMAX", Float64 [Some 20%Q; Some 11.5%Q; Some 19%Q]) ].

Definition sample_pars : list (string * string) :=
  [("tn", "TMIN"); ("rad", "SRAD"); ("prec", "RAIN"); ("rh", "RHUM"); ("TMAX", "TMAX")].

Definition sample_world : World := mkWorld [sample_table] ∅.

Definition sample_run : (exn + Weather) * World :=
  __init__ 0%nat sample_pars 4.54%Q (-75.1)%Q 1800%Q sample_world.

(** A table under canonical names, built from the columns given. *)
Definition canonical_table (idx : Series) (tmin tmax rain : list (option Q))
    (more : list (string * Series)) : DataFrame :=
  mkDataFrame idx
    ([("TMIN", Float64 tmin); ("TMAX", Float64 tmax); ("RAIN", Float64 rain)] ++ more)%list.

(** Second day: minimum above maximum; and a negative rainfall. *)
Definition hot_table : DataFrame :=
  canonical_table (Datetime64 (days [(2000, 1, 1); (2000, 1, 2)]))
    [Some 10%Q; Some 25%Q] [Some 20%Q; Some 24%Q] [Some (-1)%Q; Some 0%Q]
    [("SRAD", Float64 [Some 15%Q; Some 15%Q])].

(** Temperatures in order, relative humidity above 100 and rainfall below 0. *)
Definition humid_table : DataFrame :=
  canonical_table (Datetime64 (days [(2000, 1, 1); (2000, 1, 2)]))
    [Some 10%Q; Some 12%Q] [Some 20%Q; Some 24%Q] [Some (-1)%Q; Some 0%Q]
    [("SRAD", Float64 [Some 15%Q; Some 15%Q]); ("RHUM", Float64 [Some 50%Q; Some 101%Q])].

(** No solar radiation. *)
Definition no_srad_table : DataFrame :=
  canonical_table (Datetime64 (days [(2000, 1, 1); (2000, 1, 2)]))
    [Some 10%Q; Some 12%Q] [Some 20%Q; Some 24%Q] [Some 0%Q; Some 0%Q] [].

(** Neither minimum temperature nor rainfall. *)
Definition only_tmax_table : DataFrame :=
  mkDataFrame (Datetime64 (days [(2000, 1, 1)]))
    [("TMAX", Float64 [Some 20%Q]); ("SRAD", Float64 [Some 15%Q])].

(** A numbered index and two datetime columns, [DATE] on the left and
    [obs] on the right. *)
Definition two_dates_table : DataFrame :=
  canonical_table (Float64 [Some 0%Q; Some 1%Q])
    [Some 10%Q; Some 12%Q] [Some 20%Q; Some 24%Q] [Some 0%Q; Some 0%Q]
    [("DATE", Datetime64 (days [(2000, 1, 1); (2000, 1, 2)]));
     ("SRAD", Float64 [Some 15%Q; Some 15%Q]);
     ("obs", Datetime64 (days [(1999, 6, 1); (1999, 6, 2)]))].

(** A numbered index and no datetime column. *)
Definition no_date_table : DataFrame :=
  canonical_table (Float64 [Some 0%Q; Some 1%Q])
    [Some 10%Q; Some 12%Q] [Some 20%Q; Some 24%Q] [Some 0%Q; Some 0%Q]
    [("SRAD", Float64 [Some 15%Q; Some 15%Q])].

(** A missing rainfall on the second day. *)
Definition nan_rain_table : DataFrame :=
  canonical_table (Datetime64 (days [(2000, 1, 1); (2000, 1, 2)]))
    [Some 10%Q; Some 12%Q] [Some 20%Q; Some 24%Q] [Some 0%Q; None]
    [("SRAD", Float64 [Some 15%Q; Some 15%Q])].

(** [__init__] on a store that holds just the table [t], with no mapping. *)
Definition init_on (t : DataFrame) : (exn + Weather) * World :=
  __init__ 0%nat [] 4.54%Q (-75.1)%Q 1800%Q (mkWorld [t] ∅).

(** *** What [write] leaves behind *)

Definition label_time (v : pyval) : option Timestamp :=
  match v with
  | VTime t => Some t
  | _ => None
  end.

(** The dates of a sequence of rows, in the order of the rows. *)
Definition row_times (rows : list (pyval * list pyval)) : list Timestamp :=
  omap (fun row => label_time (fst row)) rows.

Definition row_in_year (y : Z) (row : pyval * list pyval) : bool :=
  match fst row with
  | VTime t => ts_year t =? y
  | _ => false
  end.

(** The rows of the year [y], in the order the table carries them. *)
Definition year_rows (t : DataFrame) (y : Z) : list (pyval * list pyval) :=
  List.filter (row_in_year y) (iterrows t).

(** The years of the index. *)
Definition frame_years (t : DataFrame) : list Z :=
  match index t with
  | Datetime64 l => map ts_year l
  | Float64 _ => []
  end.

(** Ascending date order. *)
Definition ts_le (a b : Timestamp) : Prop := ts_leb a b = true.
Definition ascending (l : list Timestamp) : Prop := Sorted ts_le l.

(** The rows on or after the day [start]. *)
Definition row_from (start : Timestamp) (row : pyval * list pyval) : bool :=
  match fst row with
  | VTime t => date_leb (date_of start) (date_of t)
  | _ => false
  end.

(** [self] with its [data] attribute rebound. *)
Definition set_data (self : Weather) (l : loc) : Weather :=
  mkWeather (description self) (INSI self) (LAT self) (LON self) (ELEV self)
            (TAV self) (AMP self) (REFHT self) (WNDHT self) l.

(** [self] with another institute code ([self.INSI = code]). *)
Definition set_INSI (self : Weather) (code : string) : Weather :=
  mkWeather (description self) code (LAT self) (LON self) (ELEV self)
            (TAV self) (AMP self) (REFHT self) (WNDHT self) (data self).

(** The mask [self.data.index >= sim_start] of [write]. *)
Definition start_mask (man : Management) (idx : list Timestamp) : list bool :=
  map (fun x => ts_geb x (datetime (ts_year (sim_start man)) (ts_month (sim_start man))
                                   (ts_day (sim_start man)))) idx.

(** Two digits: the text of [n] in a field of width two, zero-filled. *)
Definition two_digits (n : Z) : string := zfill 2 (str n).

Section WriteSpec.
Context `{Formater}.

(** The line of a row. *)
Definition row_line (row : pyval * list pyval) : string :=
  match fst row with
  | VTime t => weather_data (VStr (strftime_yj t) :: snd row)
  | _ => ""
  end.

(** The text of the file of the year [y]: the head, then the lines of the
    rows of that year, in the order of the table. *)
Definition file_text (self : Weather) (t : DataFrame) (y : Z) : string :=
  file_head self (columns t) +:+ String.concat "" (map row_line (year_rows t y)).

Definition file_path (self : Weather) (folder : string) (y : Z) : string :=
  path_join folder (file_name self y).

(** The files after the loop over the years [ys]. *)
Definition write_files (self : Weather) (folder : string) (t : DataFrame)
    (ys : list Z) (fs : gmap string string) : gmap string string :=
  foldl (fun fs y => <[file_path self folder y := file_text self t y]> fs) fs ys.
End WriteSpec.

(** A formatter to run examples with: fields separated by blanks, one line
    per call.  The layout of the real one is not part of this module. *)
Definition show_value (v : pyval) : string :=
  match v with
  | VStr s => s
  | VFloat (Some q) => str (Qnum q) +:+ "/" +:+ str (Zpos (Qden q))
  | VFloat None => "-99"
  | VTime t => strftime_yj t
  end.

Definition plain_formater : Formater :=
  {| weather_data := fun l => join " " (map show_value l) +:+ newline;
     weather_data_header := fun names => join " " ("@DATE" :: names) +:+ newline;
     weather_station := fun l => join " " (map show_value l) +:+ newline |}.

(** A station whose records are not in date order: the second of January
    comes before the first. *)
Definition unsorted_table : DataFrame :=
  canonical_table (Datetime64 (days [(2000, 1, 2); (2000, 1, 1); (2001, 1, 1)]))
    [Some 10%Q; Some 11%Q; Some 12%Q] [Some 20%Q; Some 21%Q; Some 22%Q]
    [Some 0%Q; Some 0%Q; Some 0%Q]
    [("SRAD", Float64 [Some 15%Q; Some 15%Q; Some 15%Q])].

(** Records of the years 1900 and 2000. *)
Definition centuries_table : DataFrame :=
  canonical_table (Datetime64 (days [(1900, 1, 1); (2000, 1, 1)]))
    [Some 10%Q; Some 11%Q] [Some 20%Q; Some 21%Q] [Some 0%Q; Some 0%Q]
    [("SRAD", Float64 [Some 15%Q; Some 15%Q])].

(** Records of June 2000 and January 2001. *)
Definition june_table : DataFrame :=
  canonical_table (Datetime64 (days [(2000, 6, 1); (2000, 6, 2); (2001, 1, 1)]))
    [Some 10%Q; Some 11%Q; Some 12%Q] [Some 20%Q; Some 21%Q; Some 22%Q]
    [Some 0%Q; Some 0%Q; Some 0%Q]
    [("SRAD", Float64 [Some 15%Q; Some 15%Q; Some 15%Q])].

(** The station as [__init__] leaves it for a table held at reference 0. *)
Definition station : Weather := new_weather 4.54%Q (-75.1)%Q 1800%Q 0%nat.

(** [write] with the plain formatter on a store that holds just [t]. *)
Definition write_on (self : Weather) (t : DataFrame) (man : option Management)
  : (exn + Weather) * World :=
  @write plain_formater self "out" man (mkWorld [t] ∅).

(** The station and the records once [write] has returned. *)
Definition records_after (man : option Management) (t : DataFrame) : DataFrame :=
  match man, index t with
  | Some m, Datetime64 idx => loc_mask (start_mask m idx) t
  | _, _ => t
  end.

Definition station_after (man : option Management) (self : Weather) (w : World) : Weather :=
  match man with
  | Some _ => set_data self (length (frames w))
  | None => self
  end.

Definition is_two_chars (s : string) : bool :=
  match s with
  | String c (String _ EmptyString) => negb (Ascii.eqb c "/")
  | _ => false
  end.

(** A simulation that starts on the second of June 2000. *)
Definition june_second : Management := mkManagement (datetime 2000 6 2).

(** Reading a numeral back: [int(s)] for a string of digits. *)
Definition int_of (s : string) : Z :=
  fold_left (fun acc c => 10 * acc + (Z.of_nat (nat_of_ascii c) - 48))
            (list_ascii_of_string s) 0.

(** * The rest of the module *)

(** ** The listing functions

    [list_station_parameters] and [list_weather_variables] print one line
    per entry of the catalogue they select; they are modelled by the lines
    they print, in order. *)

Definition listing_line (key value : string) : string := key +:+ ": " +:+ value.

Definition list_station_parameters : list string :=
  flat_map (fun kv => if str_in (fst kv) PARS_STATION
                      then [listing_line (fst kv) (snd kv)] else [])
           PARS_DESC.

Definition list_weather_variables : list string :=
  flat_map (fun kv => if str_in (fst kv) PARS_DATA
                      then [listing_line (fst kv) (snd kv)] else [])
           PARS_DESC.

(** ** [Weather.__repr__] *)

(** [t.strftime('%Y-%m-%d')] *)
Definition strftime_ymd (t : Timestamp) : string :=
  zfill 4 (str (ts_year t)) +:+ "-" +:+ zfill 2 (str (ts_month t))
  +:+ "-" +:+ zfill 2 (str (ts_day t)).

Definition ts_min (a b : Timestamp) : Timestamp := if ts_leb a b then a else b.
Definition ts_max (a b : Timestamp) : Timestamp := if ts_leb a b then b else a.

(** [index.min().strftime('%Y-%m-%d')], and the same with [max].  The
    extreme of an empty datetime index is NaT, which has no [strftime]
    ([ValueError]); the extreme of a numeric index is a float, which has no
    such attribute. *)
Definition index_extreme (pick : Timestamp -> Timestamp -> Timestamp) (idx : Series)
  : exn + string :=
  match idx with
  | Datetime64 [] => inl ValueError
  | Datetime64 (x :: l) => inr (strftime_ymd (fold_left pick l x))
  | Float64 _ => inl AttributeError
  end.

(** What [__repr__] takes from Python and pandas: the format [:.3f] of a
    float and the text of [data.mean()]. *)
Class Display : Type := {
  format_3f : Q -> string;
  repr_mean : DataFrame -> exn + string
}.

Definition __repr__ `{Display} (self : Weather) : M string :=
  let repr_str :=
    "Weather data at " +:+ format_3f (LON self) +:+ "°, "
    +:+ format_3f (LAT self) +:+ "°" +:+ newline in
  self_data ← load (data self);
  start ← M_lift (index_extreme ts_min (index self_data));
  let repr_str := repr_str +:+ "  Date start: " +:+ start +:+ newline in
  self_data ← load (data self);
  stop ← M_lift (index_extreme ts_max (index self_data));
  let repr_str := repr_str +:+ "  Date end: " +:+ stop +:+ newline in
  self_data ← load (data self);
  mean ← M_lift (repr_mean self_data);
  mret (repr_str +:+ "Average values:" +:+ newline +:+ mean).

(** ** Notions for the properties below *)

(** A calendar date: the month is one of twelve, the day one of the month. *)
Definition valid_date (t : Timestamp) : Prop :=
  1 <= ts_month t <= 12 /\ 1 <= ts_day t <= days_in_month (ts_year t) (ts_month t).

(** The records the constructor leaves in the store. *)
Definition records_of (r : (exn + Weather) * World) : option DataFrame :=
  match fst r with
  | inr self => frames (snd r) !! data self
  | inl _ => None
  end.

(** A display to run examples with. *)
Definition plain_display : Display :=
  {| format_3f := fun q => show_value (VFloat (Some q));
     repr_mean := fun d => inr (join " " (columns d)) |}.

(** Records with no row. *)
Definition empty_table : DataFrame :=
  canonical_table (Datetime64 []) [] [] [] [("SRAD", Float64 [])].

(** A table whose temperature columns carry source names, one of which
    ([tx]) is not in the table. *)
Definition raw_table : DataFrame :=
  mkDataFrame (Datetime64 (days [(2000, 1, 1); (2000, 1, 2)]))
    [ ("tn", Float64 [Some 10%Q; Some 12%Q]);
      ("TMAX", Float64 [Some 20%Q; Some 24%Q]);
      ("RAIN", Float64 [Some 0%Q; Some 0%Q]);
      ("SRAD", Float64 [Some 15%Q; Some 15%Q]) ].

(** Records indexed by numbers. *)
Definition numbered_table : DataFrame :=
  canonical_table (Float64 [Some 0%Q; Some 1%Q])
    [Some 10%Q; Some 12%Q] [Some 20%Q; Some 24%Q] [Some 0%Q; Some 0%Q]
    [("SRAD", Float64 [Some 15%Q; Some 15%Q])].

(** A numbered index and one datetime column, whose label is empty. *)
Definition unnamed_date_table : DataFrame :=
  canonical_table (Float64 [Some 0%Q; Some 1%Q])
    [Some 10%Q; Some 12%Q] [Some 20%Q; Some 24%Q] [Some 0%Q; Some 0%Q]
    [("SRAD", Float64 [Some 15%Q; Some 15%Q]);
     ("", Datetime64 (days [(2000, 1, 1); (2000, 1, 2)]))].

(** A check of one entry of the catalogue against the two listings. *)
Definition listing_check (kv : string * string) : bool :=
  Bool.eqb (str_in (listing_line (fst kv) (snd kv)) list_station_parameters)
           (str_in (fst kv) PARS_STATION) &&
  Bool.eqb (str_in (listing_line (fst kv) (snd kv)) list_weather_variables)
           (str_in (fst kv) PARS_DATA) &&
  Bool.eqb (str_in (fst kv) PARS_STATION) (negb (str_in (fst kv) PARS_DATA)).
(** * Verification *)

(** ** Association lists of columns *)

Lemma str_in_elem (x : string) (l : list string) : str_in x l = true <-> x ∈ l.
Proof.
  unfold str_in. rewrite existsb_exists. split.
  - intros (y & Hy & E). apply String.eqb_eq in E. subst y.
    by apply list_elem_of_In.
  - intros Hx. exists x. split; [by apply list_elem_of_In | apply String.eqb_refl].
Qed.

Lemma str_in_not_elem (x : string) (l : list string) : str_in x l = false <-> x ∉ l.
Proof.
  rewrite <- str_in_elem. destruct (str_in x l); split; intros; congruence.
Qed.

Section Assoc.
Context {A : Type}.
Implicit Types (l : list (string * A)) (k c : string) (v : A).

Lemma assoc_elem k v l : assoc k l = Some v -> (k, v) ∈ l.
Proof.
  induction l as [|[k' v'] l IH]; simpl; [done|].
  destruct (String.eqb_spec k' k) as [->|Hne].
  - intros [= ->]. left.
  - intros Hl. right. by apply IH.
Qed.

Lemma assoc_keys k l : k ∈ map fst l <-> is_Some (assoc k l).
Proof.
  induction l as [|[k' v'] l IH]; simpl.
  - split; [intros Hk; inversion Hk | intros [? ?]; done].
  - destruct (String.eqb_spec k' k) as [->|Hne].
    + split; [eauto | intros _; left].
    + rewrite <- IH. rewrite elem_of_cons. naive_solver.
Qed.

Lemma assoc_None k l : k ∉ map fst l <-> assoc k l = None.
Proof. rewrite assoc_keys, eq_None_not_Some. done. Qed.

Lemma assoc_NoDup k v l : NoDup (map fst l) -> (k, v) ∈ l -> assoc k l = Some v.
Proof.
  induction l as [|[k' v'] l IH]; simpl; intros Hnd Hin.
  - inversion Hin.
  - apply NoDup_cons in Hnd as [Hk' Hnd].
    apply elem_of_cons in Hin as [[= <- <-]|Hin].
    + by rewrite String.eqb_refl.
    + destruct (String.eqb_spec k' k) as [->|Hne]; [|by apply IH].
      exfalso. apply Hk'. apply list_elem_of_fmap. by exists (k, v).
Qed.

Lemma keys_assoc_set k v l c :
  c ∈ map fst (assoc_set k v l) <-> c = k \/ c ∈ map fst l.
Proof.
  induction l as [|[k' v'] l IH]; simpl.
  - rewrite elem_of_cons. naive_solver.
  - destruct (String.eqb_spec k' k) as [->|Hne]; simpl.
    + rewrite !elem_of_cons. naive_solver.
    + rewrite !elem_of_cons, IH. naive_solver.
Qed.

Lemma keys_assoc_del k l c :
  c ∈ map fst (assoc_del k l) <-> c <> k /\ c ∈ map fst l.
Proof.
  unfold assoc_del. induction l as [|[k' v'] l IH]; simpl.
  - split; [intros Hc; inversion Hc | intros [_ Hc]; inversion Hc].
  - destruct (String.eqb_spec k' k) as [->|Hne]; simpl.
    + rewrite IH, elem_of_cons. naive_solver.
    + rewrite !elem_of_cons, IH. naive_solver.
Qed.

Lemma NoDup_assoc_set k v l : NoDup (map fst l) -> NoDup (map fst (assoc_set k v l)).
Proof.
  induction l as [|[k' v'] l IH]; simpl; intros Hnd.
  - apply NoDup_cons. split; [intros Hk; inversion Hk | constructor].
  - apply NoDup_cons in Hnd as [Hk' Hnd].
    destruct (String.eqb_spec k' k) as [->|Hne]; simpl.
    + by apply NoDup_cons.
    + apply NoDup_cons. split; [|by apply IH].
      rewrite keys_assoc_set. naive_solver.
Qed.

Lemma NoDup_assoc_del k l : NoDup (map fst l) -> NoDup (map fst (assoc_del k l)).
Proof.
  unfold assoc_del. induction l as [|[k' v'] l IH]; simpl; intros Hnd; [done|].
  apply NoDup_cons in Hnd as [Hk' Hnd].
  destruct (String.eqb_spec k' k) as [->|Hne]; simpl; [by apply IH|].
  apply NoDup_cons. split; [|by apply IH].
  intros Hin. apply (keys_assoc_del k l k') in Hin. naive_solver.
Qed.

Lemma assoc_assoc_set k v l c :
  assoc c (assoc_set k v l) = if String.eqb c k then Some v else assoc c l.
Proof.
  induction l as [|[k' v'] l IH]; simpl.
  - rewrite (String.eqb_sym k c). by destruct (String.eqb c k).
  - destruct (String.eqb_spec k' k) as [->|Hne]; simpl.
    + rewrite (String.eqb_sym k c). by destruct (String.eqb c k).
    + rewrite IH. destruct (String.eqb_spec k' c) as [E|E]; [subst k'|done].
      destruct (String.eqb_spec c k); [congruence|done].
Qed.

Lemma assoc_assoc_del k l c :
  assoc c (assoc_del k l) = if String.eqb c k then None else assoc c l.
Proof.
  unfold assoc_del. induction l as [|[k' v'] l IH]; simpl.
  - by destruct (String.eqb c k).
  - destruct (String.eqb_spec k' k) as [->|Hne]; simpl.
    + rewrite IH. rewrite (String.eqb_sym k c). by destruct (String.eqb c k).
    + rewrite IH. destruct (String.eqb_spec k' c) as [E|E]; [subst k'|done].
      destruct (String.eqb_spec c k); [congruence|done].
Qed.

Lemma Forall_assoc_set (P : string * A -> Prop) k v l :
  (forall k', P (k', v)) -> Forall P l -> Forall P (assoc_set k v l).
Proof.
  intros Hv. induction 1 as [|[k' v'] l HP Hl IH]; simpl.
  - by repeat constructor.
  - destruct (String.eqb k' k); by constructor.
Qed.

Lemma Forall_assoc_del (P : string * A -> Prop) k l :
  Forall P l -> Forall P (assoc_del k l).
Proof.
  unfold assoc_del. induction 1 as [|[k' v'] l HP Hl IH]; simpl; [done|].
  destruct (negb (String.eqb k' k)); [by constructor | done].
Qed.
End Assoc.

(** ** The renaming loop *)

Lemma rename_columns_nil t : rename_columns [] t = (inr tt, t).
Proof. reflexivity. Qed.

Lemma rename_columns_cons kv pars t :
  rename_columns (kv :: pars) t =
    if negb (str_in (snd kv) PARS_DATA)
    then (inl (AssertionError (msg_invalid (snd kv))), t)
    else if negb (str_in (fst kv) PARS_DATA) then
      match assoc (fst kv) (cols t) with
      | None => (inl (KeyError (fst kv)), t)
      | Some s => rename_columns pars (frame_drop (fst kv) (frame_setitem (snd kv) s t))
      end
    else rename_columns pars t.
Proof.
  destruct kv as [key value]. unfold rename_columns at 1. simpl L_for.
  unfold mbind, L_bind, L_assert, L_lift. simpl fst. simpl snd.
  destruct (str_in value PARS_DATA); simpl; [|done].
  destruct (str_in key PARS_DATA); simpl; [done|].
  unfold getitem, frame_getitem.
  destruct (assoc key (cols t)) as [s|] eqn:E; [|done].
  unfold setitem, L_modify, drop, L_gets, mbind, L_bind.
  assert (str_in key (columns (frame_setitem value s t)) = true) as ->; [|done].
  apply str_in_elem. unfold columns, frame_setitem. simpl.
  apply keys_assoc_set. right. apply assoc_keys. by rewrite E.
Qed.

Lemma rename_columns_index pars t : index (mapped pars t) = index t.
Proof.
  unfold mapped. revert t. induction pars as [|kv pars IH]; intros t; [done|].
  rewrite rename_columns_cons.
  destruct (negb (str_in (snd kv) PARS_DATA)); [done|].
  destruct (negb (str_in (fst kv) PARS_DATA)); [|apply IH].
  destruct (assoc (fst kv) (cols t)); [|done]. by rewrite IH.
Qed.

Lemma wf_frame_setitem key s t :
  wf_frame t -> series_len s = series_len (index t) -> wf_frame (frame_setitem key s t).
Proof.
  intros [Hnd Hlen] Hs. split; simpl.
  - by apply NoDup_assoc_set.
  - by apply Forall_assoc_set.
Qed.

Lemma wf_frame_drop key t : wf_frame t -> wf_frame (frame_drop key t).
Proof.
  intros [Hnd Hlen]. split; simpl.
  - by apply NoDup_assoc_del.
  - by apply Forall_assoc_del.
Qed.

Lemma wf_frame_column t name s :
  wf_frame t -> assoc name (cols t) = Some s -> series_len s = series_len (index t).
Proof.
  intros [_ Hlen] Hs. apply assoc_elem in Hs.
  rewrite Forall_forall in Hlen. by apply (Hlen (name, s)).
Qed.

Lemma rename_columns_wf pars t : wf_frame t -> wf_frame (mapped pars t).
Proof.
  unfold mapped. revert t. induction pars as [|kv pars IH]; intros t Hwf; [done|].
  rewrite rename_columns_cons.
  destruct (negb (str_in (snd kv) PARS_DATA)); [done|].
  destruct (negb (str_in (fst kv) PARS_DATA)); [|by apply IH].
  destruct (assoc (fst kv) (cols t)) as [s|] eqn:E; [|done].
  apply IH, wf_frame_drop, wf_frame_setitem; [done|].
  by eapply wf_frame_column.
Qed.

Lemma rename_columns_ok pars t :
  valid_mapping pars t -> fst (rename_columns pars t) = inr tt.
Proof.
  revert t. induction pars as [|kv pars IH]; intros t [Hnd Hall]; [done|].
  rewrite rename_columns_cons.
  simpl in Hnd. apply NoDup_cons in Hnd as [Hk Hnd].
  apply Forall_cons in Hall as [[Hv Hkey] Hall].
  apply str_in_elem in Hv. rewrite Hv. simpl.
  destruct (str_in (fst kv) PARS_DATA) eqn:Ek; simpl.
  { apply IH. by split. }
  destruct Hkey as [Hkey|Hkey]; [apply str_in_elem in Hkey; congruence|].
  apply assoc_keys in Hkey as [s Hs]. rewrite Hs.
  apply IH. split; [done|].
  rewrite Forall_forall in Hall |- *. intros kv' Hin.
  destruct (Hall kv' Hin) as [Hv' Hk']. split; [done|].
  destruct Hk' as [Hk'|Hk']; [by left|right].
  unfold columns. simpl. apply keys_assoc_del. split.
  - intros E. apply Hk. rewrite <- E. apply list_elem_of_fmap. by exists kv'.
  - apply keys_assoc_set. by right.
Qed.

Lemma renamed_keys_not_data pars c : c ∈ renamed_keys pars -> c ∉ PARS_DATA.
Proof.
  unfold renamed_keys. intros Hc.
  apply list_elem_of_fmap in Hc as (kv & -> & Hkv).
  apply list_elem_of_In, filter_In in Hkv as [_ Hr].
  unfold renames in Hr. apply andb_true_iff in Hr as [_ Hr].
  apply negb_true_iff in Hr. by apply str_in_not_elem.
Qed.

Lemma renamed_targets_data pars c : c ∈ renamed_targets pars -> c ∈ PARS_DATA.
Proof.
  unfold renamed_targets. intros Hc.
  apply list_elem_of_fmap in Hc as (kv & -> & Hkv).
  apply list_elem_of_In, filter_In in Hkv as [_ Hr].
  unfold renames in Hr. apply andb_true_iff in Hr as [Hr _].
  by apply str_in_elem.
Qed.

(** The columns after a successful mapping: the columns of the table that
    were not renamed, and the targets of the renamings. *)
Lemma rename_columns_columns pars t c :
  fst (rename_columns pars t) = inr tt ->
  c ∈ columns (mapped pars t) <->
  (c ∈ columns t /\ c ∉ renamed_keys pars) \/ c ∈ renamed_targets pars.
Proof.
  unfold mapped. revert t. induction pars as [|kv pars IH]; intros t.
  - intros _. simpl. unfold renamed_keys, renamed_targets. simpl.
    split; [intros Hc; left; split; [done|inversion 1] | intros [[Hc _]|Hc]; [done|inversion Hc]].
  - rewrite rename_columns_cons. unfold renamed_keys, renamed_targets, renames.
    simpl List.filter. fold (renames).
    destruct (str_in (snd kv) PARS_DATA) eqn:Ev; simpl; [|done].
    destruct (str_in (fst kv) PARS_DATA) eqn:Ek; simpl.
    { apply IH. }
    destruct (assoc (fst kv) (cols t)) as [s|] eqn:E; [|done].
    intros Hok. rewrite (IH _ Hok). clear IH Hok.
    fold (renamed_keys pars). fold (renamed_targets pars).
    unfold columns, frame_drop, frame_setitem. simpl.
    rewrite keys_assoc_del, keys_assoc_set, !elem_of_cons.
    assert (snd kv <> fst kv) as Hne.
    { intros E'. rewrite E' in Ev. congruence. }
    assert (snd kv ∉ renamed_keys pars) as Hv.
    { intros Hin. apply renamed_keys_not_data in Hin.
      apply Hin. by apply str_in_elem. }
    split.
    + intros [[[Hck [->|Hc]] Hnk]|Hc]; [right; by left | left | right; by right].
      split; [done|]. intros [?|?]; done.
    + intros [[Hc Hnk]|[->|Hc]]; [left | left | by right].
      * split; [split; [|by right]|]; naive_solver.
      * split; [split; [done|by left]|done].
Qed.

(** ** Running blocks of statements *)

Lemma L_seq_ok {A B : Type} (m : L A) (k : L B) d x d' :
  m d = (inr x, d') -> (m;; k) d = k d'.
Proof. intros E. unfold mbind, L_bind. by rewrite E. Qed.

Lemma L_seq_err {A B : Type} (m : L A) (k : L B) d e d' :
  m d = (inl e, d') -> (m;; k) d = (inl e, d').
Proof. intros E. unfold mbind, L_bind. by rewrite E. Qed.

Lemma getitem_col name s d : assoc name (cols d) = Some s -> getitem name d = (inr s, d).
Proof. intros E. unfold getitem, frame_getitem. by rewrite E. Qed.

(** ** Mandatory variables *)

Lemma check_mandatory_run d :
  check_mandatory d =
    (if all (map (fun x => str_in x (columns d)) MANDATORY_DATA) then inr tt
     else inl (AssertionError (msg_mandatory MANDATORY_DATA)), d).
Proof. reflexivity. Qed.

Lemma all_mandatory d :
  all (map (fun x => str_in x (columns d)) MANDATORY_DATA) = true <-> has_mandatory d.
Proof.
  unfold all, has_mandatory. rewrite forallb_forall. split.
  - intros Hall m Hm. apply str_in_elem. apply Hall.
    apply in_map_iff. exists m. split; [done|by apply list_elem_of_In].
  - intros Hm b Hb. apply in_map_iff in Hb as (m & <- & Hin).
    apply str_in_elem, Hm. by apply list_elem_of_In.
Qed.

Lemma check_mandatory_ok d : has_mandatory d -> check_mandatory d = (inr tt, d).
Proof.
  intros Hm. rewrite check_mandatory_run.
  apply all_mandatory in Hm. by rewrite Hm.
Qed.

Lemma missing_mandatory_nil d : missing_mandatory d = [] <-> has_mandatory d.
Proof.
  rewrite <- all_mandatory. unfold missing_mandatory, all, MANDATORY_DATA. simpl.
  repeat (destruct (str_in _ (columns d)); simpl); split; (done || congruence).
Qed.

Lemma check_mandatory_fail d :
  ~ has_mandatory d ->
  check_mandatory d = (inl (AssertionError (msg_mandatory MANDATORY_DATA)), d).
Proof.
  intros Hm. rewrite check_mandatory_run.
  destruct (all _) eqn:E; [|done]. by apply all_mandatory in E.
Qed.

(** ** Element-wise comparisons *)

Lemma float_le_temp x y : float_le x y = true <-> temp_row_ok x y.
Proof.
  unfold float_le, temp_row_ok. destruct x as [p|], y as [q|]; simpl.
  - rewrite Qle_bool_iff. split; [eauto 6|].
    by intros (p' & q' & [= <-] & [= <-] & Hle).
  - split; [done|]. by intros (? & ? & _ & ? & _).
  - split; [done|]. by intros (? & ? & ? & _).
  - split; [done|]. by intros (? & ? & ? & _).
Qed.

Lemma float_le_nonneg x : float_le (Some 0%Q) x = true <-> nonneg x.
Proof.
  unfold float_le, nonneg. destruct x as [p|].
  - rewrite Qle_bool_iff. split; [eauto|]. by intros (p' & [= <-] & Hle).
  - split; [done|]. by intros (? & ? & _).
Qed.

Lemma float_le_rhum x :
  float_le (Some 0%Q) x && float_le x (Some 100%Q) = true <-> rhum_ok x.
Proof.
  unfold float_le, rhum_ok. destruct x as [p|].
  - rewrite andb_true_iff, !Qle_bool_iff. split; [intros []; eauto|].
    by intros (p' & [= <-] & Hle).
  - split; [done|]. by intros (? & ? & _).
Qed.

Lemma all_zip_Forall2 {A B : Type} (f : A -> B -> bool) (P : A -> B -> Prop) l k :
  (forall x y, f x y = true <-> P x y) ->
  length l = length k ->
  all (zip_with_bool f l k) = true <-> Forall2 P l k.
Proof.
  intros Hf. revert k. induction l as [|a l IH]; intros [|b k] Hlen; simpl in *;
    try discriminate.
  - split; [constructor|done].
  - injection Hlen as Hlen. rewrite andb_true_iff, Hf, (IH k Hlen).
    split; [intros []; by constructor | by inversion 1].
Qed.

Lemma all_zip_lookup {A B : Type} (f : A -> B -> bool) l k (i : nat) x y :
  l !! i = Some x -> k !! i = Some y -> f x y = false ->
  all (zip_with_bool f l k) = false.
Proof.
  revert k i. induction l as [|a l IH]; intros [|b k] [|i]; simpl; try done.
  - intros [= ->] [= ->] E. by rewrite E.
  - intros Hl Hk E. rewrite (IH k i Hl Hk E). apply andb_false_r.
Qed.

Lemma all_map_Forall {A : Type} (f : A -> bool) (P : A -> Prop) l :
  (forall x, f x = true <-> P x) ->
  all (map f l) = true <-> Forall P l.
Proof.
  intros Hf. induction l as [|a l IH]; simpl.
  - split; [constructor|done].
  - rewrite andb_true_iff, Hf, IH. split; [intros []; by constructor | by inversion 1].
Qed.

Lemma zip_map_same {A : Type} (f g : A -> bool) l :
  series_and (map f l) (map g l) = map (fun x => f x && g x) l.
Proof. unfold series_and. induction l; simpl; congruence. Qed.

Lemma Exists_neg_not_Forall {A : Type} (P : A -> Prop) l :
  Exists (fun x => ~ P x) l -> ~ Forall P l.
Proof. induction 1; inversion 1; naive_solver. Qed.

(** ** The quality-control block *)

Ltac l_run :=
  unfold mbind, mret, L_bind, L_ret, L_assert, L_lift, L_gets, L_modify,
    getitem, frame_getitem in *.

Lemma qc_temp_state d : snd (qc_temp d) = d.
Proof. unfold qc_temp. l_run. by repeat case_match. Qed.

Lemma qc_rhum_state d : snd (qc_rhum d) = d.
Proof. unfold qc_rhum. l_run. by repeat case_match. Qed.

Lemma qc_rain_state d : snd (qc_rain d) = d.
Proof. unfold qc_rain. l_run. by repeat case_match. Qed.

Lemma qc_srad_state d : snd (qc_srad d) = d.
Proof. unfold qc_srad. l_run. by repeat case_match. Qed.

Lemma L_result {A : Type} (m : L A) d r : snd (m d) = d -> fst (m d) = r -> m d = (r, d).
Proof. destruct (m d). simpl. congruence. Qed.

(** *** TMIN <= TMAX *)

Lemma qc_temp_float d a b :
  float_col d "TMIN" a -> float_col d "TMAX" b -> length a = length b ->
  qc_temp d =
    (if all (zip_with_bool float_le a b) then inr tt
     else inl (AssertionError msg_temp), d).
Proof.
  unfold float_col, qc_temp. intros Ha Hb Hlen. l_run.
  rewrite Ha, Hb. unfold series_le. simpl.
  rewrite Hlen, Nat.eqb_refl. simpl. by destruct (all _).
Qed.

Lemma qc_temp_satisfied d : satisfied TEMP_QC d -> qc_temp d = (inr tt, d).
Proof.
  intros (a & b & Ha & Hb & Hall).
  pose proof (Forall2_length _ _ _ Hall) as Hlen.
  rewrite (qc_temp_float d a b Ha Hb Hlen).
  apply (all_zip_Forall2 float_le temp_row_ok) in Hall; [|apply float_le_temp|done].
  by rewrite Hall.
Qed.

Lemma qc_temp_violated d :
  wf_frame d -> violated TEMP_QC d -> qc_temp d = (inl (AssertionError msg_temp), d).
Proof.
  intros Hwf (a & b & i & x & y & Ha & Hb & Hx & Hy & Hbad).
  assert (length a = length b) as Hlen.
  { apply (wf_frame_column d _ _ Hwf) in Ha, Hb. simpl in *. congruence. }
  rewrite (qc_temp_float d a b Ha Hb Hlen).
  rewrite (all_zip_lookup float_le a b i x y Hx Hy); [done|].
  destruct (float_le x y) eqn:E; [|done]. by apply float_le_temp in E.
Qed.

Lemma qc_temp_error d e : fst (qc_temp d) = inl e ->
  "TMIN" ∈ columns d -> "TMAX" ∈ columns d -> wf_frame d -> qc_error e.
Proof.
  intros He Hmin Hmax Hwf.
  apply assoc_keys in Hmin as [smin Hmin]. apply assoc_keys in Hmax as [smax Hmax].
  assert (series_len smin = series_len smax) as Hlen.
  { apply (wf_frame_column d _ _ Hwf) in Hmin, Hmax. congruence. }
  revert He. unfold qc_temp. l_run. rewrite Hmin, Hmax. unfold series_le.
  rewrite Hlen, Nat.eqb_refl. simpl.
  destruct smin, smax; simpl; try (intros [= <-]; by left);
    destruct (all _); simpl; try done; intros [= <-]; right; by exists TEMP_QC.
Qed.

Lemma zip_float_le_nan_l a b :
  None ∈ a -> length a = length b -> all (zip_with_bool float_le a b) = false.
Proof.
  intros Hin Hlen. apply list_elem_of_lookup in Hin as [i Hi].
  destruct (lookup_lt_is_Some_2 b i) as [y Hy].
  { rewrite <- Hlen. by eapply lookup_lt_Some. }
  by apply (all_zip_lookup float_le a b i None y).
Qed.

Lemma zip_float_le_nan_r a b :
  None ∈ b -> length a = length b -> all (zip_with_bool float_le a b) = false.
Proof.
  intros Hin Hlen. apply list_elem_of_lookup in Hin as [i Hi].
  destruct (lookup_lt_is_Some_2 a i) as [x Hx].
  { rewrite Hlen. by eapply lookup_lt_Some. }
  apply (all_zip_lookup float_le a b i x None); [done|done|].
  by destruct x.
Qed.

Lemma qc_temp_nan d :
  wf_frame d -> has_nan d "TMIN" \/ has_nan d "TMAX" -> "TMIN" ∈ columns d ->
  "TMAX" ∈ columns d -> exists e, qc_temp d = (inl e, d) /\ qc_error e.
Proof.
  intros Hwf Hnan Hmin Hmax.
  destruct (fst (qc_temp d)) as [e|[]] eqn:E.
  - exists e. split; [by apply L_result; [apply qc_temp_state|] | by eapply qc_temp_error].
  - exfalso.
    apply assoc_keys in Hmin as [smin Hmin]. apply assoc_keys in Hmax as [smax Hmax].
    assert (series_len smin = series_len smax) as Hlen.
    { apply (wf_frame_column d _ _ Hwf) in Hmin, Hmax. congruence. }
    revert E. unfold qc_temp. l_run. rewrite Hmin, Hmax. unfold series_le.
    rewrite Hlen, Nat.eqb_refl. simpl.
    destruct Hnan as [(l & Hl & Hin)|(l & Hl & Hin)]; unfold float_col in Hl.
    + rewrite Hmin in Hl. injection Hl as ->. destruct smax as [b|b]; simpl; [|done].
      rewrite (zip_float_le_nan_l l b Hin Hlen). done.
    + rewrite Hmax in Hl. injection Hl as ->. destruct smin as [a|a]; simpl; [|done].
      rewrite (zip_float_le_nan_r a l Hin Hlen). done.
Qed.

(** *** 0 <= RHUM <= 100, if present *)

Lemma qc_rhum_absent d : "RHUM" ∉ columns d -> qc_rhum d = (inr tt, d).
Proof.
  intros Hno. apply str_in_not_elem in Hno. unfold qc_rhum. l_run. by rewrite Hno.
Qed.

Lemma qc_rhum_float d l :
  float_col d "RHUM" l ->
  qc_rhum d =
    (if all (map (fun x => float_le (Some 0%Q) x && float_le x (Some 100%Q)) l)
     then inr tt else inl (AssertionError msg_rhum), d).
Proof.
  unfold float_col, qc_rhum. intros Hl. l_run.
  assert (str_in "RHUM" (columns d) = true) as ->.
  { apply str_in_elem, assoc_keys. by rewrite Hl. }
  rewrite Hl. simpl. rewrite zip_map_same. by destruct (all _).
Qed.

Lemma qc_rhum_satisfied d : satisfied RHUM_QC d -> qc_rhum d = (inr tt, d).
Proof.
  intros [Hno|(l & Hl & Hall)]; [by apply qc_rhum_absent|].
  rewrite (qc_rhum_float d l Hl).
  eapply all_map_Forall in Hall; [by rewrite Hall|]. apply float_le_rhum.
Qed.

Lemma qc_rhum_violated d :
  violated RHUM_QC d -> qc_rhum d = (inl (AssertionError msg_rhum), d).
Proof.
  intros (l & Hl & Hbad). rewrite (qc_rhum_float d l Hl).
  destruct (all _) eqn:E; [|done].
  eapply all_map_Forall in E; [|apply float_le_rhum].
  by apply Exists_neg_not_Forall in Hbad.
Qed.

Lemma qc_rhum_error d e : fst (qc_rhum d) = inl e -> qc_error e.
Proof.
  unfold qc_rhum. l_run. destruct (str_in "RHUM" (columns d)) eqn:Hin; [|done].
  apply str_in_elem, assoc_keys in Hin as [s Hs]. rewrite Hs.
  destruct s; simpl; [|intros [= <-]; by left].
  destruct (all _); simpl; [done|]. intros [= <-]. right. by exists RHUM_QC.
Qed.

Lemma nan_not_rhum_ok l : None ∈ l -> ~ Forall rhum_ok l.
Proof.
  intros Hin Hall. rewrite Forall_forall in Hall.
  by destruct (Hall None Hin) as (? & ? & _).
Qed.

Lemma nan_not_nonneg l : None ∈ l -> ~ Forall nonneg l.
Proof.
  intros Hin Hall. rewrite Forall_forall in Hall.
  by destruct (Hall None Hin) as (? & ? & _).
Qed.

Lemma qc_rhum_nan d :
  has_nan d "RHUM" -> qc_rhum d = (inl (AssertionError msg_rhum), d).
Proof.
  intros (l & Hl & Hin). rewrite (qc_rhum_float d l Hl).
  destruct (all _) eqn:E; [|done].
  eapply all_map_Forall in E; [|apply float_le_rhum].
  by apply nan_not_rhum_ok in Hin.
Qed.

(** *** RAIN >= 0 *)

Lemma qc_rain_float d l :
  float_col d "RAIN" l ->
  qc_rain d =
    (if all (map (fun x => float_le (Some 0%Q) x) l)
     then inr tt else inl (AssertionError msg_rain), d).
Proof.
  unfold float_col, qc_rain. intros Hl. l_run.
  rewrite Hl. simpl. by destruct (all _).
Qed.

Lemma qc_rain_satisfied d : satisfied RAIN_QC d -> qc_rain d = (inr tt, d).
Proof.
  intros (l & Hl & Hall). rewrite (qc_rain_float d l Hl).
  eapply all_map_Forall in Hall; [by rewrite Hall|]. apply float_le_nonneg.
Qed.

Lemma qc_rain_violated d :
  violated RAIN_QC d -> qc_rain d = (inl (AssertionError msg_rain), d).
Proof.
  intros (l & Hl & Hbad). rewrite (qc_rain_float d l Hl).
  destruct (all _) eqn:E; [|done].
  eapply all_map_Forall in E; [|apply float_le_nonneg].
  by apply Exists_neg_not_Forall in Hbad.
Qed.

Lemma qc_rain_error d e : fst (qc_rain d) = inl e -> "RAIN" ∈ columns d -> qc_error e.
Proof.
  intros He Hin. revert He. unfold qc_rain. l_run.
  apply assoc_keys in Hin as [s Hs]. rewrite Hs.
  destruct s; simpl; [|intros [= <-]; by left].
  destruct (all _); simpl; [done|]. intros [= <-]. right. by exists RAIN_QC.
Qed.

Lemma qc_rain_nan d :
  has_nan d "RAIN" -> qc_rain d = (inl (AssertionError msg_rain), d).
Proof.
  intros (l & Hl & Hin). rewrite (qc_rain_float d l Hl).
  destruct (all _) eqn:E; [|done].
  eapply all_map_Forall in E; [|apply float_le_nonneg].
  by apply nan_not_nonneg in Hin.
Qed.

(** *** SRAD >= 0, if present *)

Lemma qc_srad_absent d : "SRAD" ∉ columns d -> qc_srad d = (inr tt, d).
Proof.
  intros Hno. apply str_in_not_elem in Hno. unfold qc_srad. l_run. by rewrite Hno.
Qed.

Lemma qc_srad_float d l :
  float_col d "SRAD" l ->
  qc_srad d =
    (if all (map (fun x => float_le (Some 0%Q) x) l)
     then inr tt else inl (AssertionError msg_srad), d).
Proof.
  unfold float_col, qc_srad. intros Hl. l_run.
  assert (str_in "SRAD" (columns d) = true) as ->.
  { apply str_in_elem, assoc_keys. by rewrite Hl. }
  rewrite Hl. simpl. by destruct (all _).
Qed.

Lemma qc_srad_satisfied d : satisfied SRAD_QC d -> qc_srad d = (inr tt, d).
Proof.
  intros [Hno|(l & Hl & Hall)]; [by apply qc_srad_absent|].
  rewrite (qc_srad_float d l Hl).
  eapply all_map_Forall in Hall; [by rewrite Hall|]. apply float_le_nonneg.
Qed.

Lemma qc_srad_violated d :
  violated SRAD_QC d -> qc_srad d = (inl (AssertionError msg_srad), d).
Proof.
  intros (l & Hl & Hbad). rewrite (qc_srad_float d l Hl).
  destruct (all _) eqn:E; [|done].
  eapply all_map_Forall in E; [|apply float_le_nonneg].
  by apply Exists_neg_not_Forall in Hbad.
Qed.

Lemma qc_srad_error d e : fst (qc_srad d) = inl e -> qc_error e.
Proof.
  unfold qc_srad. l_run. destruct (str_in "SRAD" (columns d)) eqn:Hin; [|done].
  apply str_in_elem, assoc_keys in Hin as [s Hs]. rewrite Hs.
  destruct s; simpl; [|intros [= <-]; by left].
  destruct (all _); simpl; [done|]. intros [= <-]. right. by exists SRAD_QC.
Qed.

Lemma qc_srad_nan d :
  has_nan d "SRAD" -> qc_srad d = (inl (AssertionError msg_srad), d).
Proof.
  intros (l & Hl & Hin). rewrite (qc_srad_float d l Hl).
  destruct (all _) eqn:E; [|done].
  eapply all_map_Forall in E; [|apply float_le_nonneg].
  by apply nan_not_nonneg in Hin.
Qed.

(** *** The four checks in sequence *)

Lemma quality_control_run d :
  quality_control d =
    match fst (qc_temp d) with
    | inl e => (inl e, d)
    | inr _ =>
        match fst (qc_rhum d) with
        | inl e => (inl e, d)
        | inr _ =>
            match fst (qc_rain d) with
            | inl e => (inl e, d)
            | inr _ => (fst (qc_srad d), d)
            end
        end
    end.
Proof.
  unfold quality_control, mbind, L_bind.
  pose proof (qc_temp_state d) as H1. destruct (qc_temp d) as [[e|[]] d1];
    simpl in *; subst d1; [done|].
  pose proof (qc_rhum_state d) as H2. destruct (qc_rhum d) as [[e|[]] d2];
    simpl in *; subst d2; [done|].
  pose proof (qc_rain_state d) as H3. destruct (qc_rain d) as [[e|[]] d3];
    simpl in *; subst d3; [done|].
  pose proof (qc_srad_state d) as H4. destruct (qc_srad d) as [r d4];
    simpl in *; by subst d4.
Qed.

Lemma quality_control_ok d :
  (forall r, satisfied r d) -> quality_control d = (inr tt, d).
Proof.
  intros Hall. rewrite quality_control_run.
  rewrite (qc_temp_satisfied d (Hall TEMP_QC)), (qc_rhum_satisfied d (Hall RHUM_QC)),
    (qc_rain_satisfied d (Hall RAIN_QC)), (qc_srad_satisfied d (Hall SRAD_QC)).
  done.
Qed.

(** The first rule that some row breaks is the one reported. *)
Lemma quality_control_first d r :
  wf_frame d ->
  violated r d ->
  (forall r', (rule_rank r' < rule_rank r)%nat -> satisfied r' d) ->
  quality_control d = (inl (AssertionError (rule_msg r)), d).
Proof.
  intros Hwf Hbad Hbefore. rewrite quality_control_run.
  destruct r; simpl in Hbefore.
  - by rewrite (qc_temp_violated d Hwf Hbad).
  - rewrite (qc_temp_satisfied d (Hbefore TEMP_QC ltac:(simpl; lia))).
    by rewrite (qc_rhum_violated d Hbad).
  - rewrite (qc_temp_satisfied d (Hbefore TEMP_QC ltac:(simpl; lia))).
    rewrite (qc_rhum_satisfied d (Hbefore RHUM_QC ltac:(simpl; lia))).
    by rewrite (qc_rain_violated d Hbad).
  - rewrite (qc_temp_satisfied d (Hbefore TEMP_QC ltac:(simpl; lia))).
    rewrite (qc_rhum_satisfied d (Hbefore RHUM_QC ltac:(simpl; lia))).
    rewrite (qc_rain_satisfied d (Hbefore RAIN_QC ltac:(simpl; lia))).
    by rewrite (qc_srad_violated d Hbad).
Qed.

Lemma elem_mandatory_TMIN : "TMIN" ∈ MANDATORY_DATA.
Proof. apply str_in_elem. reflexivity. Qed.
Lemma elem_mandatory_TMAX : "TMAX" ∈ MANDATORY_DATA.
Proof. apply str_in_elem. reflexivity. Qed.
Lemma elem_mandatory_RAIN : "RAIN" ∈ MANDATORY_DATA.
Proof. apply str_in_elem. reflexivity. Qed.
Lemma elem_mandatory_SRAD : "SRAD" ∈ MANDATORY_DATA.
Proof. apply str_in_elem. reflexivity. Qed.

Lemma quality_control_error d e :
  wf_frame d -> has_mandatory d -> fst (quality_control d) = inl e -> qc_error e.
Proof.
  intros Hwf Hm. rewrite quality_control_run.
  destruct (fst (qc_temp d)) as [e1|[]] eqn:E1.
  { intros [= <-]. eapply qc_temp_error; eauto using elem_mandatory_TMIN, elem_mandatory_TMAX. }
  destruct (fst (qc_rhum d)) as [e2|[]] eqn:E2.
  { intros [= <-]. by eapply qc_rhum_error. }
  destruct (fst (qc_rain d)) as [e3|[]] eqn:E3.
  { intros [= <-]. eapply qc_rain_error; eauto using elem_mandatory_RAIN. }
  simpl. apply qc_srad_error.
Qed.

(** A missing value in a checked column is never accepted. *)
Lemma quality_control_nan d :
  wf_frame d -> has_mandatory d ->
  has_nan d "TMIN" \/ has_nan d "TMAX" \/ has_nan d "RAIN" \/
    has_nan d "RHUM" \/ has_nan d "SRAD" ->
  exists e, quality_control d = (inl e, d) /\ qc_error e.
Proof.
  intros Hwf Hm Hnan.
  destruct (fst (quality_control d)) as [e|[]] eqn:E.
  { exists e. split; [|by eapply quality_control_error].
    revert E. rewrite quality_control_run. repeat case_match; simpl; congruence. }
  exfalso. revert E. rewrite quality_control_run.
  pose proof (Hm _ elem_mandatory_TMIN) as Hmin.
  pose proof (Hm _ elem_mandatory_TMAX) as Hmax.
  destruct Hnan as [H|[H|[H|[H|H]]]].
  - destruct (qc_temp_nan d Hwf (or_introl H) Hmin Hmax) as (e & -> & _). done.
  - destruct (qc_temp_nan d Hwf (or_intror H) Hmin Hmax) as (e & -> & _). done.
  - rewrite (qc_rain_nan d H). repeat case_match; done.
  - rewrite (qc_rhum_nan d H). repeat case_match; done.
  - rewrite (qc_srad_nan d H). repeat case_match; done.
Qed.

(** ** The date column *)

Lemma last_datetime_Some l kv :
  last_datetime l = Some kv -> kv ∈ l /\ is_datetime64_any_dtype (snd kv) = true.
Proof.
  induction l as [|kv' l IH]; simpl; [done|].
  destruct (last_datetime l) as [x|].
  - intros [= <-]. destruct (IH eq_refl). split; [by right|done].
  - destruct (is_datetime64_any_dtype (snd kv')) eqn:E; [|done].
    intros [= <-]. split; [left|done].
Qed.

Lemma last_datetime_None l :
  last_datetime l = None <-> Forall (fun kv => is_datetime64_any_dtype (snd kv) = false) l.
Proof.
  induction l as [|kv l IH]; simpl; [split; [constructor|done]|].
  destruct (last_datetime l) as [x|].
  - split; [done|]. inversion 1; subst. by apply IH.
  - destruct (is_datetime64_any_dtype (snd kv)) eqn:E.
    + split; [done|]. inversion 1; congruence.
    + split; [|done]. intros _. constructor; [done|by apply IH].
Qed.

(** The columns to the right of the last datetime column are not datetime
    columns. *)
Lemma last_datetime_split l kv :
  last_datetime l = Some kv ->
  exists l1 l2, l = (l1 ++ kv :: l2)%list /\
    Forall (fun kv => is_datetime64_any_dtype (snd kv) = false) l2.
Proof.
  induction l as [|kv' l IH]; simpl; [done|].
  destruct (last_datetime l) as [x|] eqn:E.
  - intros [= <-]. destruct (IH eq_refl) as (l1 & l2 & -> & Hl2).
    by exists (kv' :: l1), l2.
  - destruct (is_datetime64_any_dtype (snd kv')); [|done].
    intros [= <-]. exists [], l. split; [done|]. by apply last_datetime_None.
Qed.

Lemma scan_columns_run d l acc :
  (forall kv, kv ∈ l -> assoc (fst kv) (cols d) = Some (snd kv)) ->
  scan_columns (map fst l) acc d =
    (inr match last_datetime l with
         | Some kv => PyStr (fst kv)
         | None => acc
         end, d).
Proof.
  revert acc. induction l as [|kv l IH]; intros acc Hl; [done|].
  simpl. unfold mbind, L_bind.
  rewrite (getitem_col (fst kv) (snd kv)); [|apply Hl; left].
  rewrite IH; [|intros kv' Hin; apply Hl; by right].
  by destruct (last_datetime l), (is_datetime64_any_dtype (snd kv)).
Qed.

Lemma check_date_column_run d :
  NoDup (columns d) ->
  check_date_column d =
    if is_datetime64_any_dtype (index d) then (inr tt, d)
    else
      match last_datetime (cols d) with
      | Some kv =>
          if String.eqb (fst kv) "" then (inl (AssertionError msg_date), d)
          else (inr tt, frame_set_index (fst kv) (snd kv) d)
      | None => (inl (AssertionError msg_date), d)
      end.
Proof.
  intros Hnd. unfold check_date_column.
  unfold mbind at 1. unfold L_bind at 1. unfold L_gets at 1.
  unfold mbind at 1. unfold L_bind at 1. unfold columns at 1.
  rewrite scan_columns_run.
  2:{ intros [k s] Hin. by apply assoc_NoDup. }
  unfold mbind, L_bind, L_gets, L_assert, L_lift.
  destruct (is_datetime64_any_dtype (index d)); [done|].
  destruct (last_datetime (cols d)) as [kv|] eqn:E; [|done].
  simpl. destruct (String.eqb (fst kv) ""); simpl; [done|].
  unfold set_index, mbind, L_bind.
  apply last_datetime_Some in E as [Hin _].
  rewrite (getitem_col (fst kv) (snd kv)); [done|].
  apply assoc_NoDup; [done|]. by destruct kv.
Qed.

(** ** The statements of [__init__] on the copy *)

Lemma rename_columns_pair pars t :
  rename_columns pars t = (fst (rename_columns pars t), mapped pars t).
Proof. unfold mapped. by destruct (rename_columns pars t). Qed.

Lemma init_data_rename_error pars t e :
  fst (rename_columns pars t) = inl e -> init_data pars t = (inl e, mapped pars t).
Proof.
  intros E. unfold init_data. apply L_seq_err.
  rewrite rename_columns_pair. by rewrite E.
Qed.

Lemma init_data_renamed pars t d :
  rename_columns pars t = (inr tt, d) ->
  init_data pars t = (check_mandatory;; quality_control;; check_date_column) d.
Proof. intros E. unfold init_data. by erewrite L_seq_ok. Qed.

Lemma init_data_missing pars t d :
  rename_columns pars t = (inr tt, d) -> ~ has_mandatory d ->
  init_data pars t = (inl (AssertionError (msg_mandatory MANDATORY_DATA)), d).
Proof.
  intros E Hm. rewrite (init_data_renamed pars t d E).
  apply L_seq_err. by apply check_mandatory_fail.
Qed.

Lemma init_data_qc pars t d :
  rename_columns pars t = (inr tt, d) -> has_mandatory d ->
  init_data pars t =
    match fst (quality_control d) with
    | inl e => (inl e, d)
    | inr _ => check_date_column d
    end.
Proof.
  intros E Hm. rewrite (init_data_renamed pars t d E).
  erewrite L_seq_ok; [|by apply check_mandatory_ok].
  unfold mbind, L_bind.
  pose proof (quality_control_run d) as Hq.
  destruct (quality_control d) as [[e|[]] d'] eqn:Eq; simpl.
  - revert Hq. repeat case_match; congruence.
  - revert Hq. repeat case_match; congruence.
Qed.

Lemma init_data_date pars t d :
  reaches_date_step pars t d -> init_data pars t = check_date_column d.
Proof.
  intros (E & Em & Eq). rewrite (init_data_renamed pars t d E).
  erewrite L_seq_ok; [|done]. by erewrite L_seq_ok.
Qed.

(** ** [__init__] against the store *)

Lemma init_run w df t pars lat lon elev :
  frames w !! df = Some t ->
  __init__ df pars lat lon elev w =
    (match fst (init_data pars t) with
     | inl e => inl e
     | inr _ => inr (new_weather lat lon elev (length (frames w)))
     end,
     mkWorld (frames w ++ [snd (init_data pars t)]) (files w)).
Proof.
  intros Hdf. unfold __init__, copy, load, new_frame, in_place, mbind, M_bind.
  rewrite Hdf. simpl.
  rewrite lookup_app_r; [|done]. rewrite Nat.sub_diag. simpl.
  destruct (init_data pars t) as [[e|[]] d]; simpl.
  - f_equal. f_equal. rewrite insert_app_r_alt; [|done]. by rewrite Nat.sub_diag.
  - f_equal. f_equal. rewrite insert_app_r_alt; [|done]. by rewrite Nat.sub_diag.
Qed.

Lemma init_dangling w df pars lat lon elev :
  frames w !! df = None ->
  __init__ df pars lat lon elev w = (inl ReferenceError, w).
Proof.
  intros Hdf. unfold __init__, copy, load, mbind, M_bind. by rewrite Hdf.
Qed.

(** ** Checking concrete tables *)

Lemma distinct_NoDup l : distinct l = true -> NoDup l.
Proof.
  induction l as [|x l IH]; simpl; [constructor|].
  rewrite andb_true_iff, negb_true_iff, str_in_not_elem. intros [Hx Hl].
  apply NoDup_cons. split; [done|by apply IH].
Qed.

Lemma wf_frameb_sound d : wf_frameb d = true -> wf_frame d.
Proof.
  unfold wf_frameb, wf_frame. rewrite andb_true_iff, forallb_forall.
  intros [Hd Hl]. split; [by apply distinct_NoDup|].
  apply Forall_forall. intros kv Hin. apply Nat.eqb_eq, Hl. by apply list_elem_of_In.
Qed.

(** ** The order on timestamps *)

Lemma ts_leb_refl a : ts_leb a a = true.
Proof.
  unfold ts_leb, ts_compare. rewrite !Z.compare_refl. by rewrite N.compare_refl.
Qed.

Lemma ts_leb_trans a b c : ts_leb a b = true -> ts_leb b c = true -> ts_leb a c = true.
Proof.
  unfold ts_leb, ts_compare.
  destruct (Z.compare_spec (ts_year a) (ts_year b)),
           (Z.compare_spec (ts_year b) (ts_year c)),
           (Z.compare_spec (ts_year a) (ts_year c)); try lia; try done;
  destruct (Z.compare_spec (ts_month a) (ts_month b)),
           (Z.compare_spec (ts_month b) (ts_month c)),
           (Z.compare_spec (ts_month a) (ts_month c)); try lia; try done;
  destruct (Z.compare_spec (ts_day a) (ts_day b)),
           (Z.compare_spec (ts_day b) (ts_day c)),
           (Z.compare_spec (ts_day a) (ts_day c)); try lia; try done;
  destruct (N.compare_spec (ts_nanos a) (ts_nanos b)),
           (N.compare_spec (ts_nanos b) (ts_nanos c)),
           (N.compare_spec (ts_nanos a) (ts_nanos c)); try lia; done.
Qed.

#[global] Instance ts_le_trans : Transitive ts_le.
Proof. intros a b c. apply ts_leb_trans. Qed.

(** A timestamp is on or after midnight of a day exactly when its date is
    that day or a later one. *)
Lemma ts_geb_datetime x y m d :
  ts_geb x (datetime y m d) = date_leb (y, m, d) (date_of x).
Proof.
  unfold ts_geb, date_leb, date_of, ts_leb, ts_compare, datetime. simpl.
  destruct (y ?= ts_year x); try done.
  destruct (m ?= ts_month x); try done.
  destruct (d ?= ts_day x); try done.
  by destruct (ts_nanos x).
Qed.

(** ** Masks and rows *)

Section Mask.
Context {A : Type}.
Implicit Types (l : list A) (m : list bool).

Lemma mask_filter_nil m : mask_filter m (@nil A) = [].
Proof. by destruct m as [|[] m]. Qed.

Lemma mask_filter_filter (f : A -> bool) l : mask_filter (map f l) l = List.filter f l.
Proof. induction l as [|x l IH]; simpl; [done|]. rewrite IH. by destruct (f x). Qed.

Lemma mask_filter_ext {B : Type} (f : B -> bool) (g : A -> bool) (k : list B) l :
  map f k = map g l -> mask_filter (map f k) l = List.filter g l.
Proof. intros ->. apply mask_filter_filter. Qed.

Lemma mask_filter_length {B : Type} m l (k : list B) :
  length l = length k -> length (mask_filter m l) = length (mask_filter m k).
Proof.
  revert l k. induction m as [|b m IH]; intros [|x l] [|y k] Hlen; simpl in *;
    try done.
  injection Hlen as Hlen. destruct b; simpl; auto.
Qed.
End Mask.

Lemma mask_filter_map {A B : Type} (f : A -> B) m (l : list A) :
  mask_filter m (map f l) = map f (mask_filter m l).
Proof.
  revert l. induction m as [|b m IH]; intros [|x l]; simpl; try done.
  rewrite IH. by destruct b.
Qed.

Lemma series_values_length s : length (series_values s) = series_len s.
Proof. destruct s; simpl; by rewrite length_map. Qed.

Lemma series_values_mask m s :
  series_values (series_mask m s) = mask_filter m (series_values s).
Proof. destruct s; simpl; by rewrite mask_filter_map. Qed.

Lemma rows_of_labels labels cs : map fst (rows_of labels cs) = labels.
Proof.
  revert cs. induction labels as [|day r IH]; intros cs; simpl; [done|]. by rewrite IH.
Qed.

Lemma rows_of_mask m labels cs :
  Forall (fun c => length c = length labels) cs ->
  rows_of (mask_filter m labels) (map (mask_filter m) cs) =
    mask_filter m (rows_of labels cs).
Proof.
  revert m cs. induction labels as [|day r IH]; intros m cs Hlen.
  - simpl. by rewrite !mask_filter_nil.
  - destruct m as [|b m]; [reflexivity|].
    assert (Forall (fun c => length c = length r) (map (@tail pyval) cs)) as Hlen'.
    { apply Forall_forall. intros c' Hin. apply list_elem_of_fmap in Hin as (c & -> & Hc).
      rewrite Forall_forall in Hlen. specialize (Hlen c Hc).
      destruct c; simpl in *; [done|congruence]. }
    assert (map (@tail pyval) (map (mask_filter (true :: m)) cs) =
            map (mask_filter m) (map (@tail pyval) cs)) as Htl.
    { rewrite !map_map. apply map_ext_in. intros c Hc.
      rewrite Forall_forall in Hlen. apply list_elem_of_In in Hc.
      specialize (Hlen c Hc). by destruct c. }
    assert (map first_value (map (mask_filter (true :: m)) cs) = map first_value cs) as Hhd.
    { rewrite !map_map. apply map_ext_in. intros c Hc.
      rewrite Forall_forall in Hlen. apply list_elem_of_In in Hc.
      specialize (Hlen c Hc). by destruct c. }
    assert (map (mask_filter (false :: m)) cs =
            map (mask_filter m) (map (@tail pyval) cs)) as Hskip.
    { rewrite !map_map. apply map_ext_in. intros c Hc.
      rewrite Forall_forall in Hlen. apply list_elem_of_In in Hc.
      specialize (Hlen c Hc). by destruct c. }
    destruct b; simpl mask_filter at 1; simpl rows_of at 2.
    + cbn [rows_of]. rewrite Hhd, Htl. cbn [mask_filter]. f_equal. by apply IH.
    + rewrite Hskip. cbn [mask_filter]. by apply IH.
Qed.

Lemma iterrows_loc_mask m t :
  wf_frame t -> iterrows (loc_mask m t) = mask_filter m (iterrows t).
Proof.
  intros [_ Hlen]. unfold iterrows, loc_mask. simpl.
  rewrite series_values_mask. rewrite map_map. simpl.
  rewrite <- (rows_of_mask m).
  - f_equal. rewrite map_map. apply map_ext. intros kv. apply series_values_mask.
  - apply Forall_forall. intros c Hin. apply list_elem_of_fmap in Hin as (kv & -> & Hkv).
    rewrite Forall_forall in Hlen. rewrite !series_values_length. by apply Hlen.
Qed.

Lemma wf_frame_loc_mask m t : wf_frame t -> wf_frame (loc_mask m t).
Proof.
  intros [Hnd Hlen]. split.
  - unfold columns, loc_mask. simpl. rewrite map_map. simpl. exact Hnd.
  - unfold loc_mask. simpl. apply Forall_forall. intros kv' Hin.
    apply list_elem_of_fmap in Hin as (kv & -> & Hkv). simpl.
    rewrite Forall_forall in Hlen. specialize (Hlen kv Hkv).
    rewrite <- !series_values_length, !series_values_mask.
    apply mask_filter_length. by rewrite !series_values_length.
Qed.

Lemma columns_loc_mask m t : columns (loc_mask m t) = columns t.
Proof. unfold columns, loc_mask. simpl. by rewrite map_map. Qed.

(** *** Tables indexed by dates *)

Lemma iterrows_labels t idx :
  index t = Datetime64 idx -> map fst (iterrows t) = map VTime idx.
Proof. intros E. unfold iterrows. rewrite rows_of_labels, E. done. Qed.

Lemma row_times_labels rows idx : map fst rows = map VTime idx -> row_times rows = idx.
Proof.
  revert idx. unfold row_times.
  induction rows as [|[day fields] rows IH]; intros [|x idx]; simpl; try done.
  intros [= -> Hrest]. simpl. f_equal. by apply IH.
Qed.

Lemma row_times_iterrows t idx : index t = Datetime64 idx -> row_times (iterrows t) = idx.
Proof. intros E. by apply row_times_labels, iterrows_labels. Qed.

Lemma mask_rows (f : Timestamp -> bool) (g : pyval * list pyval -> bool) rows idx :
  map fst rows = map VTime idx ->
  (forall x fields, g (VTime x, fields) = f x) ->
  mask_filter (map f idx) rows = List.filter g rows.
Proof.
  intros Hlab Hg. apply mask_filter_ext.
  revert idx Hlab. induction rows as [|[day fields] rows IH]; intros [|x idx]; simpl;
    try done.
  intros [= -> Hrest]. rewrite Hg. f_equal. by apply IH.
Qed.

Lemma iterrows_year t idx year :
  wf_frame t -> index t = Datetime64 idx ->
  iterrows (loc_mask (map (fun y => y =? year) (map ts_year idx)) t) = year_rows t year.
Proof.
  intros Hwf E. rewrite (iterrows_loc_mask _ t Hwf). rewrite map_map.
  unfold year_rows. apply (mask_rows (fun x => ts_year x =? year)).
  - by apply iterrows_labels.
  - done.
Qed.

Lemma iterrows_start t idx man :
  wf_frame t -> index t = Datetime64 idx ->
  iterrows (loc_mask (start_mask man idx) t) =
    List.filter (row_from (sim_start man)) (iterrows t).
Proof.
  intros Hwf E. rewrite (iterrows_loc_mask _ t Hwf). unfold start_mask.
  apply (mask_rows (fun x => ts_geb x _)).
  - by apply iterrows_labels.
  - intros x fields. unfold row_from. simpl. by rewrite ts_geb_datetime.
Qed.

Lemma row_times_filter (f : Timestamp -> bool) (g : pyval * list pyval -> bool) rows idx :
  map fst rows = map VTime idx ->
  (forall x fields, g (VTime x, fields) = f x) ->
  row_times (List.filter g rows) = List.filter f idx.
Proof.
  intros Hlab Hg. revert idx Hlab. unfold row_times.
  induction rows as [|[day fields] rows IH]; intros [|x idx]; simpl; try done.
  intros [= -> Hrest]. rewrite Hg. destruct (f x); simpl; [f_equal|]; by apply IH.
Qed.

Lemma filter_ascending (f : Timestamp -> bool) l : ascending l -> ascending (List.filter f l).
Proof.
  unfold ascending. intros Hs. apply Sorted_StronglySorted in Hs; [|apply ts_le_trans].
  apply StronglySorted_Sorted.
  induction Hs as [|x l Hl IH Hx]; simpl; [constructor|].
  destruct (f x); [|done]. constructor; [done|].
  apply List.Forall_forall. intros y Hy. apply filter_In in Hy as [Hy _].
  rewrite List.Forall_forall in Hx. by apply Hx.
Qed.

(** ** Running [write] *)

Lemma unique_elem l (y : Z) : y ∈ unique l <-> y ∈ l.
Proof.
  induction l as [|x l IH]; simpl; [done|].
  rewrite !elem_of_cons, <- IH. rewrite list_elem_of_In, filter_In, <- list_elem_of_In.
  rewrite negb_true_iff, Z.eqb_neq. destruct (decide (y = x)); naive_solver.
Qed.

Lemma unique_NoDup l : NoDup (unique l).
Proof.
  induction l as [|x l IH]; simpl; [constructor|].
  apply NoDup_cons. split.
  - rewrite list_elem_of_In, filter_In, negb_true_iff, Z.eqb_neq. naive_solver.
  - apply NoDup_ListNoDup, List.NoDup_filter, NoDup_ListNoDup, IH.
Qed.

Section WriteRun.
Context `{Formater}.

Lemma exn_map_data_line rows :
  (forall row, row ∈ rows -> is_Some (label_time (fst row))) ->
  exn_map data_line rows = inr (map row_line rows).
Proof.
  induction rows as [|[day fields] rows IH]; intros Hlab; [done|].
  cbn [exn_map map]. rewrite IH; [|intros row Hin; apply Hlab; by right].
  destruct (Hlab (day, fields)) as [ts Hts]; [left|].
  by destruct day.
Qed.

Lemma exn_map_year_rows t y :
  exn_map data_line (year_rows t y) = inr (map row_line (year_rows t y)).
Proof.
  apply exn_map_data_line. intros [day fields] Hin.
  apply list_elem_of_In, filter_In in Hin as [_ Hy].
  unfold row_in_year in Hy. simpl in *. by destruct day.
Qed.

Lemma write_year_run self folder year w t idx :
  frames w !! data self = Some t -> wf_frame t -> index t = Datetime64 idx ->
  write_year self folder year w =
    (inr tt, mkWorld (frames w)
               (<[file_path self folder year := file_text self t year]> (files w))).
Proof.
  intros Ht Hwf Eidx. unfold write_year, load, M_lift, mbind, M_bind.
  rewrite Ht, Eidx. simpl index_year. cbv iota beta.
  rewrite (iterrows_year t idx year Hwf Eidx), exn_map_year_rows.
  reflexivity.
Qed.

Lemma write_years_run self folder ys w t idx :
  frames w !! data self = Some t -> wf_frame t -> index t = Datetime64 idx ->
  M_for ys (write_year self folder) w =
    (inr tt, mkWorld (frames w) (write_files self folder t ys (files w))).
Proof.
  intros Ht Hwf Eidx. revert w Ht.
  induction ys as [|y ys IH]; intros w Ht; [by destruct w|].
  simpl. unfold mbind, M_bind.
  rewrite (write_year_run self folder y w t idx Ht Hwf Eidx).
  by rewrite IH.
Qed.

(** [write] without a start date: the station and the frames are as
    before, and the files of the years are written one after the other. *)
Lemma write_run self folder w t idx :
  frames w !! data self = Some t -> wf_frame t -> index t = Datetime64 idx ->
  write self folder None w =
    (inr self,
     mkWorld (frames w)
             (write_files self folder t (unique (map ts_year idx)) (files w))).
Proof.
  intros Ht Hwf Eidx. unfold write, load, M_lift, mbind, mret, M_bind, M_ret.
  rewrite Ht, Eidx. simpl index_year. cbv iota beta.
  by rewrite (write_years_run self folder _ w t idx Ht Hwf Eidx).
Qed.

(** [write] with a start date: the station is rebound to a new frame with
    the rows from that day on, and the files are those of that frame. *)
Lemma write_run_start self folder man w t idx :
  frames w !! data self = Some t -> wf_frame t -> index t = Datetime64 idx ->
  write self folder (Some man) w =
    (inr (set_data self (length (frames w))),
     mkWorld (frames w ++ [loc_mask (start_mask man idx) t])
             (write_files self folder (loc_mask (start_mask man idx) t)
                (unique (map ts_year (mask_filter (start_mask man idx) idx)))
                (files w))).
Proof.
  intros Ht Hwf Eidx. unfold write, load, new_frame, M_lift, mbind, mret, M_bind, M_ret.
  rewrite Ht, Eidx. simpl index_ge. cbv iota beta. fold (start_mask man idx).
  fold (set_data self (length (frames w))).
  set (t' := loc_mask (start_mask man idx) t).
  set (w' := mkWorld (frames w ++ [t']) (files w)).
  assert (frames w' !! data (set_data self (length (frames w))) = Some t') as Ht'.
  { simpl. rewrite lookup_app_r; [|done]. by rewrite Nat.sub_diag. }
  assert (index t' = Datetime64 (mask_filter (start_mask man idx) idx)) as Eidx'.
  { unfold t', loc_mask. simpl. by rewrite Eidx. }
  rewrite Ht', Eidx'. simpl index_year. cbv iota beta.
  rewrite (write_years_run _ folder _ w' t' _ Ht' (wf_frame_loc_mask _ t Hwf) Eidx').
  reflexivity.
Qed.

(** *** The files of the loop *)

Lemma write_files_other self folder t ys fs p :
  (forall y, y ∈ ys -> file_path self folder y <> p) ->
  write_files self folder t ys fs !! p = fs !! p.
Proof.
  unfold write_files. revert fs. induction ys as [|y ys IH]; intros fs Hp; [done|].
  simpl. rewrite IH; [|intros y' Hy'; apply Hp; by right].
  rewrite lookup_insert_ne; [done|]. apply Hp. left.
Qed.

Lemma write_files_lookup self folder t ys fs y :
  y ∈ ys ->
  (forall y', y' ∈ ys -> file_path self folder y' = file_path self folder y -> y' = y) ->
  write_files self folder t ys fs !! file_path self folder y = Some (file_text self t y).
Proof.
  unfold write_files. revert fs. induction ys as [|x ys IH]; intros fs Hin Hinj.
  - inversion Hin.
  - simpl. destruct (decide (y ∈ ys)) as [Hy|Hy].
    + apply IH; [done|]. intros y' Hy'. apply Hinj. by right.
    + apply elem_of_cons in Hin as [->|Hin]; [|done].
      fold (write_files self folder t ys (<[file_path self folder x := file_text self t x]> fs)).
      rewrite write_files_other.
      * by rewrite lookup_insert_eq.
      * intros y' Hy' E. apply Hy. rewrite <- (Hinj y'); [done|by right|done].
Qed.

Lemma write_files_dom self folder t ys fs :
  dom (write_files self folder t ys fs) =
    dom fs ∪ list_to_set (map (file_path self folder) ys).
Proof.
  unfold write_files. revert fs. induction ys as [|y ys IH]; intros fs; simpl.
  - set_solver.
  - rewrite IH, dom_insert_L. set_solver.
Qed.
End WriteRun.

(** ** File names *)

Lemma range_check (P : Z -> bool) (lo hi : Z) :
  forallb P (map (fun k => lo + Z.of_nat k) (seq 0 (Z.to_nat (hi - lo)))) = true ->
  forall z, lo <= z < hi -> P z = true.
Proof.
  rewrite forallb_forall. intros Hall z Hz. apply Hall.
  apply in_map_iff. exists (Z.to_nat (z - lo)). split; [lia|].
  apply in_seq. lia.
Qed.

(** For a year of four digits, [str(year)[2:]] is its last two digits. *)
Lemma year_suffix y : 1000 <= y <= 9999 -> slice_from 2 (str y) = two_digits (y mod 100).
Proof.
  intros Hy.
  apply String.eqb_eq.
  apply (range_check (fun y => String.eqb (slice_from 2 (str y)) (two_digits (y mod 100)))
           1000 10000); [by vm_compute|lia].
Qed.

Lemma two_digits_shape n : 0 <= n < 100 -> is_two_chars (two_digits n) = true.
Proof.
  intros Hn.
  apply (range_check (fun n => is_two_chars (two_digits n)) 0 100); [by vm_compute|lia].
Qed.

Lemma two_digits_inj a b :
  0 <= a < 100 -> 0 <= b < 100 -> two_digits a = two_digits b -> a = b.
Proof.
  intros Ha Hb E.
  pose proof (range_check
    (fun a => forallb (fun b => implb (String.eqb (two_digits a) (two_digits b)) (a =? b))
                      (map (fun k => 0 + Z.of_nat k) (seq 0 (Z.to_nat (100 - 0)))))
    0 100 ltac:(by vm_compute) a ltac:(lia)) as Hcheck.
  pose proof (range_check _ 0 100 Hcheck b ltac:(lia)) as Hab.
  simpl in Hab. rewrite E, String.eqb_refl in Hab. simpl in Hab. by apply Z.eqb_eq.
Qed.

Lemma mod100_range y : 0 <= y mod 100 < 100.
Proof. apply Z.mod_pos_bound. lia. Qed.

Section FileNames.
Context `{Formater}.

Lemma file_name_year self y :
  1000 <= y <= 9999 ->
  file_name self y = INSI self +:+ (two_digits (y mod 100) +:+ "01.WTH").
Proof.
  intros Hy. unfold file_name. rewrite (year_suffix y Hy).
  destruct (two_digits (y mod 100)) as [|c1 [|c2 s]]; try done.
Qed.

Lemma file_name_sep self y1 y2 :
  1000 <= y1 <= 9999 -> 1000 <= y2 <= 9999 ->
  starts_with_sep (file_name self y1) = starts_with_sep (file_name self y2).
Proof.
  intros H1 H2. rewrite !file_name_year by done.
  destruct (INSI self) as [|c r]; [|done]. simpl.
  pose proof (two_digits_shape (y1 mod 100) (mod100_range y1)) as S1.
  pose proof (two_digits_shape (y2 mod 100) (mod100_range y2)) as S2.
  destruct (two_digits (y1 mod 100)) as [|c1 [|c1' [|]]]; try done.
  destruct (two_digits (y2 mod 100)) as [|c2 [|c2' [|]]]; try done.
  cbv [String.append starts_with_sep] in *. simpl in S1, S2.
  apply negb_true_iff in S1, S2. congruence.
Qed.

Lemma file_name_inj self y1 y2 :
  1000 <= y1 <= 9999 -> 1000 <= y2 <= 9999 ->
  file_name self y1 = file_name self y2 -> y1 mod 100 = y2 mod 100.
Proof.
  intros H1 H2. rewrite !file_name_year by done. intros E.
  apply String.app_inj in E.
  pose proof (two_digits_shape (y1 mod 100) (mod100_range y1)) as S1.
  pose proof (two_digits_shape (y2 mod 100) (mod100_range y2)) as S2.
  apply two_digits_inj; [apply mod100_range|apply mod100_range|].
  destruct (two_digits (y1 mod 100)) as [|c1 [|c1' [|]]]; try done.
  destruct (two_digits (y2 mod 100)) as [|c2 [|c2' [|]]]; try done.
  cbv [String.append] in E. congruence.
Qed.

(** Two four-digit years with different last two digits have different
    files. *)
Lemma file_path_inj self folder y1 y2 :
  1000 <= y1 <= 9999 -> 1000 <= y2 <= 9999 ->
  file_path self folder y1 = file_path self folder y2 -> y1 mod 100 = y2 mod 100.
Proof.
  intros H1 H2. unfold file_path, path_join.
  rewrite (file_name_sep self y1 y2 H1 H2).
  destruct (starts_with_sep (file_name self y2)).
  - by apply file_name_inj.
  - destruct (String.eqb folder "" || ends_with_sep folder); intros E.
    + apply String.app_inj in E. by apply file_name_inj in E.
    + do 2 apply String.app_inj in E. by apply file_name_inj in E.
Qed.
End FileNames.

Section WriteEffect.
Context `{Formater}.

(** What a call of [write] does to a station with dated records. *)
Lemma write_effect self folder man w t idx :
  frames w !! data self = Some t -> wf_frame t -> index t = Datetime64 idx ->
  exists w',
    write self folder man w = (inr (station_after man self w), w') /\
    frames w' !! data (station_after man self w) = Some (records_after man t) /\
    frames w' !! data self = Some t /\
    wf_frame (records_after man t) /\
    (exists idx', index (records_after man t) = Datetime64 idx') /\
    files w' =
      write_files self folder (records_after man t)
        (unique (frame_years (records_after man t))) (files w).
Proof.
  intros Ht Hwf Eidx. destruct man as [man|]; unfold records_after, station_after.
  - rewrite Eidx. eexists. split; [by apply (write_run_start self folder man w t idx)|].
    simpl. repeat split.
    + rewrite lookup_app_r; [|done]. by rewrite Nat.sub_diag.
    + rewrite lookup_app_l; [done|]. by eapply lookup_lt_Some.
    + by apply wf_frame_loc_mask.
    + by apply wf_frame_loc_mask.
    + rewrite Eidx. simpl. eauto.
    + unfold frame_years. simpl. by rewrite Eidx.
  - eexists. split; [by apply (write_run self folder w t idx)|].
    simpl. repeat split; try done; [by apply Hwf|by apply Hwf|by eauto|].
    unfold frame_years. by rewrite Eidx.
Qed.

Lemma year_rows_times t idx y :
  index t = Datetime64 idx ->
  row_times (year_rows t y) = List.filter (fun x => ts_year x =? y) idx.
Proof.
  intros E. unfold year_rows.
  apply (row_times_filter (fun x => ts_year x =? y)); [by apply iterrows_labels|done].
Qed.
End WriteEffect.


(** ** The normalisation of the institute code *)

Lemma upper_length s : String.length (upper s) = String.length s.
Proof. induction s as [|c s IH]; simpl; congruence. Qed.

Lemma slice_to_length n s : String.length (slice_to n s) = Nat.min n (String.length s).
Proof.
  revert s. induction n as [|n IH]; intros [|c s]; simpl; try done. by rewrite IH.
Qed.

Lemma upper_char_idem c : upper_char (upper_char c) = upper_char c.
Proof. by destruct c as [[] [] [] [] [] [] [] []]. Qed.

Lemma upper_idem s : upper (upper s) = upper s.
Proof. induction s as [|c s IH]; simpl; [done|]. by rewrite upper_char_idem, IH. Qed.

(** ** Mapping values that are not data variables *)

Lemma rename_columns_invalid key value pars t :
  value ∉ PARS_DATA ->
  rename_columns ((key, value) :: pars) t = (inl (InvalidVariableName value), t).
Proof.
  intros Hv. apply str_in_not_elem in Hv.
  rewrite rename_columns_cons. simpl. by rewrite Hv.
Qed.

(** ** The text of numbers and dates *)

(** [str] spends no more fuel than it has: the numeral reads back as the
    number, for every number a year or a day of the year can be. *)
Lemma str_int_of n : 0 <= n < 10000 -> int_of (str n) = n.
Proof.
  intros Hn. apply Z.eqb_eq.
  apply (range_check (fun n => int_of (str n) =? n) 0 10000); [by vm_compute|lia].
Qed.

Example str_2000 : str 2000 = "2000".
Proof. reflexivity. Qed.

Example str_negative : str (-75) = "-75".
Proof. reflexivity. Qed.

Example year_suffix_1999 : slice_from 2 (str 1999) = "99".
Proof. reflexivity. Qed.

Example two_digits_7 : two_digits 7 = "07".
Proof. reflexivity. Qed.

Example strftime_leap_year_end : strftime_yj (datetime 2000 12 31) = "00366".
Proof. reflexivity. Qed.

Example strftime_first_of_march : strftime_yj (datetime 2001 3 1) = "01060".
Proof. reflexivity. Qed.

Example path_join_plain : path_join "out" "WSTA0001.WTH" = "out/WSTA0001.WTH".
Proof. reflexivity. Qed.

Example path_join_slash : path_join "out/" "WSTA0001.WTH" = "out/WSTA0001.WTH".
Proof. reflexivity. Qed.

Example path_join_empty : path_join "" "WSTA0001.WTH" = "WSTA0001.WTH".
Proof. reflexivity. Qed.

Example PARS_DATA_value :
  PARS_DATA = ["DATE"; "SRAD"; "TMAX"; "TMIN"; "RAIN"; "DEWP"; "WIND"; "PAR"; "EVAP"; "RHUM"].
Proof. reflexivity. Qed.

Example upper_mixed : upper "wSta-1z" = "WSTA-1Z".
Proof. reflexivity. Qed.

(** * The constructor *)

Lemma init_fails_with w df t pars lat lon elev e d :
  frames w !! df = Some t ->
  init_data pars t = (inl e, d) ->
  fst (__init__ df pars lat lon elev w) = inl e.
Proof. intros Hdf E. rewrite (init_run w df t) by done. by rewrite E. Qed.

Lemma init_returns w df t pars lat lon elev d :
  frames w !! df = Some t ->
  init_data pars t = (inr tt, d) ->
  __init__ df pars lat lon elev w =
    (inr (new_weather lat lon elev (length (frames w))),
     mkWorld (frames w ++ [d]) (files w)).
Proof. intros Hdf E. rewrite (init_run w df t) by done. by rewrite E. Qed.

Lemma mapped_of_run pars t d : rename_columns pars t = (inr tt, d) -> d = mapped pars t.
Proof. intros E. unfold mapped. by rewrite E. Qed.

(** C2.  A table that passes the mapping and the mandatory-variable check
    and has a row whose TMIN exceeds its TMAX makes the constructor raise the
    temperature assertion, and no object is returned.  More generally the
    four rules are checked in the order TMIN<=TMAX, RHUM in [0,100] (if
    present), RAIN>=0, SRAD>=0 (if present), and the error raised is the one
    of the first rule that some row breaks. *)
Theorem init_quality_control_order w df t pars lat lon elev d :
  frames w !! df = Some t ->
  wf_frame t ->
  rename_columns pars t = (inr tt, d) ->
  has_mandatory d ->
  (temp_exceeds d ->
     fst (__init__ df pars lat lon elev w) = inl (QualityControlError TEMP_QC)) /\
  (forall r,
     violated r d ->
     (forall r', (rule_rank r' < rule_rank r)%nat -> satisfied r' d) ->
     fst (__init__ df pars lat lon elev w) = inl (QualityControlError r)).
Proof.
  intros Hdf Hwf Hren Hm.
  assert (wf_frame d) as Hwfd.
  { rewrite (mapped_of_run pars t d Hren). by apply rename_columns_wf. }
  assert (forall r, violated r d ->
    (forall r', (rule_rank r' < rule_rank r)%nat -> satisfied r' d) ->
    fst (__init__ df pars lat lon elev w) = inl (QualityControlError r)) as Hgen.
  { intros r Hbad Hbefore.
    apply (init_fails_with w df t pars lat lon elev _ d Hdf).
    rewrite (init_data_qc pars t d Hren Hm).
    by rewrite (quality_control_first d r Hwfd Hbad Hbefore). }
  split; [|exact Hgen].
  intros (a & b & i & p & q & Ha & Hb & Hp & Hq & Hlt).
  apply (Hgen TEMP_QC).
  - exists a, b, i, (Some p), (Some q). repeat split; try done.
    intros (p' & q' & [= <-] & [= <-] & Hle).
    by apply Qlt_not_le in Hlt.
  - simpl. intros r' Hr'. lia.
Qed.

Lemma init_quality_control_order_witness :
  fst (init_on hot_table) = inl (AssertionError "TMAX < TMIN at some point in the series") /\
  fst (init_on humid_table) = inl (AssertionError "0 <= RHUM <= 100 must be accomplished").
Proof.
  split.
  - refine (proj1 (init_quality_control_order (mkWorld [hot_table] ∅) 0%nat hot_table []
             4.54%Q (-75.1)%Q 1800%Q hot_table eq_refl _ eq_refl _) _).
    + by apply wf_frameb_sound.
    + by apply all_mandatory.
    + exists [Some 10%Q; Some 25%Q], [Some 20%Q; Some 24%Q], 1%nat, 25%Q, 24%Q.
      by repeat split.
  - refine (proj2 (init_quality_control_order (mkWorld [humid_table] ∅) 0%nat humid_table []
             4.54%Q (-75.1)%Q 1800%Q humid_table eq_refl _ eq_refl _) RHUM_QC _ _).
    + by apply wf_frameb_sound.
    + by apply all_mandatory.
    + exists [Some 50%Q; Some 101%Q]. split; [done|].
      apply Exists_cons_tl, Exists_cons_hd.
      intros (p & [= <-] & _ & Hle). by apply Qle_bool_iff in Hle.
    + intros [] Hr; simpl in Hr; try lia.
      exists [Some 10%Q; Some 12%Q], [Some 20%Q; Some 24%Q]. repeat split; try done.
      apply (all_zip_Forall2 float_le); [apply float_le_temp|done|done].
Defined.

(** C3 (amended).  When a mandatory variable is not a column after the
    mapping, the constructor raises the mandatory-variable assertion; its
    message is a fixed text that names all four mandatory variables, whichever
    of them are missing. *)
Theorem init_missing_mandatory w df t pars lat lon elev d :
  frames w !! df = Some t ->
  rename_columns pars t = (inr tt, d) ->
  missing_mandatory d <> [] ->
  fst (__init__ df pars lat lon elev w) = inl (MissingMandatoryVariable MANDATORY_DATA) /\
  MissingMandatoryVariable MANDATORY_DATA =
    AssertionError "Data must contain at least TMIN, TMAX, RAIN, SRAD variables".
Proof.
  intros Hdf Hren Hmiss. split; [|done].
  apply (init_fails_with w df t pars lat lon elev _ d Hdf).
  apply init_data_missing; [done|].
  intros Hm. by apply missing_mandatory_nil in Hm.
Qed.

Lemma init_missing_mandatory_witness :
  missing_mandatory no_srad_table = ["SRAD"] /\
  fst (init_on no_srad_table) =
    inl (AssertionError "Data must contain at least TMIN, TMAX, RAIN, SRAD variables").
Proof.
  split; [done|].
  destruct (init_missing_mandatory (mkWorld [no_srad_table] ∅) 0%nat no_srad_table []
              4.54%Q (-75.1)%Q 1800%Q no_srad_table eq_refl eq_refl) as [E1 E2].
  - discriminate.
  - unfold init_on. rewrite E1. exact (f_equal inl E2).
Defined.

(** C3, as stated, fails: the error does not list the missing names.  A
    table that lacks only SRAD and a table that lacks TMIN and RAIN raise the
    same error, which is not the one listing what is missing. *)
Lemma init_missing_message_fixed :
  missing_mandatory no_srad_table = ["SRAD"] /\
  missing_mandatory only_tmax_table = ["TMIN"; "RAIN"] /\
  fst (init_on no_srad_table) = fst (init_on only_tmax_table) /\
  fst (init_on no_srad_table) <> inl (MissingMandatoryVariable (missing_mandatory no_srad_table)).
Proof. repeat split; try done. Qed.

(** C8.  The constructor works on a copy: whatever it returns or raises,
    the caller's table is the same object with the same content (index,
    columns and values), and so is every other object of the store and every
    file. *)
Theorem init_leaves_caller_table w df pars lat lon elev :
  frames (snd (__init__ df pars lat lon elev w)) !! df = frames w !! df /\
  take (length (frames w)) (frames (snd (__init__ df pars lat lon elev w))) = frames w /\
  files (snd (__init__ df pars lat lon elev w)) = files w.
Proof.
  destruct (frames w !! df) as [t|] eqn:Hdf.
  - rewrite (init_run w df t) by done. simpl. repeat split.
    + rewrite lookup_app_l; [done|]. by eapply lookup_lt_Some.
    + by rewrite take_app_length.
  - rewrite init_dangling by done. simpl. repeat split; [done|].
    by rewrite firstn_all.
Qed.



(** C10.  When the table passes the mapping and the mandatory-variable
    check and a checked column (TMIN, TMAX, RAIN, or RHUM or SRAD when
    present) holds a missing value, the constructor fails in the
    quality-control step: a missing value is never accepted. *)
Theorem init_rejects_missing_values w df t pars lat lon elev d :
  frames w !! df = Some t ->
  wf_frame t ->
  rename_columns pars t = (inr tt, d) ->
  has_mandatory d ->
  has_nan d "TMIN" \/ has_nan d "TMAX" \/ has_nan d "RAIN" \/
    has_nan d "RHUM" \/ has_nan d "SRAD" ->
  exists e, fst (__init__ df pars lat lon elev w) = inl e /\ qc_error e.
Proof.
  intros Hdf Hwf Hren Hm Hnan.
  assert (wf_frame d) as Hwfd.
  { rewrite (mapped_of_run pars t d Hren). by apply rename_columns_wf. }
  destruct (quality_control_nan d Hwfd Hm Hnan) as (e & Hq & He).
  exists e. split; [|done].
  apply (init_fails_with w df t pars lat lon elev _ d Hdf).
  rewrite (init_data_qc pars t d Hren Hm). by rewrite Hq.
Qed.

Lemma init_rejects_missing_values_witness :
  exists e, fst (init_on nan_rain_table) = inl e /\ qc_error e.
Proof.
  apply (init_rejects_missing_values (mkWorld [nan_rain_table] ∅) 0%nat nan_rain_table []
           4.54%Q (-75.1)%Q 1800%Q nan_rain_table eq_refl).
  - by apply wf_frameb_sound.
  - reflexivity.
  - by apply all_mandatory.
  - right. right. left. exists [Some 0%Q; None]. split; [done|].
    apply elem_of_cons. right. apply elem_of_cons. by left.
Defined.

Lemma mandatory_float d m :
  has_mandatory d -> (forall r, satisfied r d) -> m ∈ MANDATORY_DATA ->
  exists l, float_col d m l.
Proof.
  intros Hm Hsat Hin.
  destruct (Hsat TEMP_QC) as (a & b & Ha & Hb & _).
  destruct (Hsat RAIN_QC) as (r & Hr & _).
  destruct (Hsat SRAD_QC) as [Hno|(s & Hs & _)].
  { exfalso. apply Hno, Hm, elem_mandatory_SRAD. }
  unfold MANDATORY_DATA in Hin. rewrite !elem_of_cons in Hin.
  destruct Hin as [->|[->|[->|[->|Hin]]]]; eauto. inversion Hin.
Qed.

(** C1 (amended).  For a well-formed table, a mapping whose values are data
    variables and whose renamed keys are columns, and a mapped table that
    has the mandatory variables, meets the four rules and has a date source,
    the constructor succeeds.  The records hold the four mandatory
    variables, and their columns are exactly: the columns of the input that
    the mapping did not rename, and the targets of the renamings, less the
    datetime column adopted as the index.  Columns the mapping does not
    mention stay. *)
Theorem init_records_columns w df t pars lat lon elev :
  frames w !! df = Some t ->
  wf_frame t ->
  valid_mapping pars t ->
  has_mandatory (mapped pars t) ->
  (forall r, satisfied r (mapped pars t)) ->
  date_source (mapped pars t) <> MissingDateColumn ->
  exists self w' records,
    __init__ df pars lat lon elev w = (inr self, w') /\
    frames w' !! data self = Some records /\
    has_mandatory records /\
    forall c, c ∈ columns records <->
      ((c ∈ columns t /\ c ∉ renamed_keys pars) \/ c ∈ renamed_targets pars) /\
      date_source (mapped pars t) <> FromColumn c.
Proof.
  intros Hdf Hwf Hmap Hm Hsat Hdate.
  pose proof (rename_columns_ok pars t Hmap) as Hok.
  pose proof (rename_columns_columns pars t) as Hcols.
  pose proof (rename_columns_wf pars t Hwf) as [Hnd Hlen].
  pose proof (rename_columns_pair pars t) as Hren. rewrite Hok in Hren.
  set (d := mapped pars t) in *.
  assert (init_data pars t = check_date_column d) as Hinit.
  { rewrite (init_data_qc pars t d Hren Hm). by rewrite (quality_control_ok d Hsat). }
  rewrite (check_date_column_run d Hnd) in Hinit.
  assert (forall rec, init_data pars t = (inr tt, rec) ->
    __init__ df pars lat lon elev w =
      (inr (new_weather lat lon elev (length (frames w))),
       mkWorld (frames w ++ [rec]) (files w)) /\
    frames (mkWorld (frames w ++ [rec]) (files w))
      !! data (new_weather lat lon elev (length (frames w))) = Some rec) as Hrun.
  { intros rec E. split; [by apply (init_returns w df t)|].
    simpl. rewrite lookup_app_r; [|done]. by rewrite Nat.sub_diag. }
  unfold date_source in Hdate |- *.
  destruct (is_datetime64_any_dtype (index d)) eqn:Eidx.
  - destruct (Hrun d Hinit) as [E1 E2].
    eexists _, _, d. repeat split; try done.
    + by apply Hcols.
    + intros [Hc _]. by apply Hcols.
  - destruct (last_datetime (cols d)) as [kv|] eqn:Elast; [|done].
    destruct (String.eqb (fst kv) "") eqn:Ename; [done|].
    destruct (Hrun _ Hinit) as [E1 E2].
    apply last_datetime_Some in Elast as [Hkv Hdt].
    assert (assoc (fst kv) (cols d) = Some (snd kv)) as Hassoc.
    { apply assoc_NoDup; [done|]. by destruct kv. }
    eexists _, _, _. split; [exact E1|]. split; [exact E2|]. split.
    + intros m Hin. unfold columns. simpl. apply keys_assoc_del. split; [|by apply Hm].
      intros ->. destruct (mandatory_float d (fst kv) Hm Hsat Hin) as [l Hl].
      unfold float_col in Hl. rewrite Hassoc in Hl.
      injection Hl as Hl. rewrite Hl in Hdt. done.
    + intros c. unfold columns at 1. simpl. rewrite keys_assoc_del.
      rewrite <- (Hcols c Hok). fold (columns d). split.
      * intros [Hne Hc]. split; [done|]. congruence.
      * intros [Hc Hne]. split; [|done]. congruence.
Qed.

Lemma init_records_columns_witness :
  exists self w' records,
    sample_run = (inr self, w') /\
    frames w' !! data self = Some records /\
    has_mandatory records /\
    forall c, c ∈ columns records <->
      ((c ∈ columns sample_table /\ c ∉ renamed_keys sample_pars) \/
       c ∈ renamed_targets sample_pars) /\
      date_source (mapped sample_pars sample_table) <> FromColumn c.
Proof.
  apply (init_records_columns sample_world 0%nat sample_table sample_pars
           4.54%Q (-75.1)%Q 1800%Q eq_refl).
  - by apply wf_frameb_sound.
  - split.
    + by apply distinct_NoDup.
    + repeat (apply Forall_cons; split;
        [split; [by apply str_in_elem | first [left; by apply str_in_elem | right; by apply str_in_elem]]|]).
      apply Forall_nil_2.
  - by apply all_mandatory.
  - intros []; simpl.
    + eexists _, _. split; [reflexivity|]. split; [reflexivity|].
      apply (all_zip_Forall2 float_le); [apply float_le_temp|done|done].
    + right. eexists. split; [reflexivity|].
      apply (all_map_Forall _ _ _ float_le_rhum). reflexivity.
    + eexists. split; [reflexivity|].
      apply (all_map_Forall _ _ _ float_le_nonneg). reflexivity.
    + right. eexists. split; [reflexivity|].
      apply (all_map_Forall _ _ _ float_le_nonneg). reflexivity.
  - discriminate.
Defined.

(** C1, as stated, fails: the column [cloud], which is neither mandatory nor
    a target of the mapping, is a column of the records. *)
Lemma init_keeps_unmapped_column :
  fst sample_run = inr (new_weather 4.54%Q (-75.1)%Q 1800%Q 1%nat) /\
  (columns <$> frames (snd sample_run) !! 1%nat) =
    Some ["cloud"; "TMAX"; "TMIN"; "SRAD"; "RAIN"; "RHUM"] /\
  str_in "cloud" (MANDATORY_DATA ++ map snd sample_pars) = false.
Proof. repeat split. Qed.

(** C4 (amended).  Once the table has passed the earlier steps, the date
    source is settled as follows.  A datetime index is kept as it is, and so
    are the columns.  Otherwise the LAST datetime column, left to right, is
    taken (when its label is not empty): it becomes the index and is no
    longer a column.  With no datetime index and no datetime column the
    constructor raises the date assertion. *)
Theorem init_date_source w df t pars lat lon elev d :
  frames w !! df = Some t ->
  wf_frame t ->
  reaches_date_step pars t d ->
  (is_datetime64_any_dtype (index d) = true ->
     __init__ df pars lat lon elev w =
       (inr (new_weather lat lon elev (length (frames w))),
        mkWorld (frames w ++ [d]) (files w))) /\
  (is_datetime64_any_dtype (index d) = false ->
   forall name s, last_datetime (cols d) = Some (name, s) -> name <> "" ->
     __init__ df pars lat lon elev w =
       (inr (new_weather lat lon elev (length (frames w))),
        mkWorld (frames w ++ [mkDataFrame s (assoc_del name (cols d))]) (files w))) /\
  (is_datetime64_any_dtype (index d) = false ->
   Forall (fun kv => is_datetime64_any_dtype (snd kv) = false) (cols d) ->
     fst (__init__ df pars lat lon elev w) = inl MissingDateColumnError).
Proof.
  intros Hdf Hwf Hreach.
  pose proof (init_data_date pars t d Hreach) as Hinit.
  destruct Hreach as (Hren & _ & _).
  assert (NoDup (columns d)) as Hnd.
  { rewrite (mapped_of_run pars t d Hren). by apply rename_columns_wf. }
  rewrite (check_date_column_run d Hnd) in Hinit.
  repeat split.
  - intros Eidx. rewrite Eidx in Hinit. by apply (init_returns w df t).
  - intros Eidx name s Elast Hname. rewrite Eidx, Elast in Hinit. simpl in Hinit.
    apply String.eqb_neq in Hname. rewrite Hname in Hinit.
    by apply (init_returns w df t).
  - intros Eidx Hnone. apply last_datetime_None in Hnone.
    rewrite Eidx, Hnone in Hinit.
    by apply (init_fails_with w df t pars lat lon elev _ d Hdf).
Qed.

Lemma init_date_source_witness :
  init_on two_dates_table =
    (inr (new_weather 4.54%Q (-75.1)%Q 1800%Q 1%nat),
     mkWorld [two_dates_table;
              mkDataFrame (Datetime64 (days [(1999, 6, 1); (1999, 6, 2)]))
                          (assoc_del "obs" (cols two_dates_table))] ∅) /\
  fst (init_on no_date_table) = inl MissingDateColumnError.
Proof.
  split.
  - refine (proj1 (proj2 (init_date_source (mkWorld [two_dates_table] ∅) 0%nat
      two_dates_table [] 4.54%Q (-75.1)%Q 1800%Q two_dates_table eq_refl _ _))
      eq_refl "obs" _ eq_refl _).
    + by apply wf_frameb_sound.
    + by repeat split.
    + discriminate.
  - refine (proj2 (proj2 (init_date_source (mkWorld [no_date_table] ∅) 0%nat
      no_date_table [] 4.54%Q (-75.1)%Q 1800%Q no_date_table eq_refl _ _))
      eq_refl _).
    + by apply wf_frameb_sound.
    + by repeat split.
    + by repeat constructor.
Defined.

(** C4, as stated, fails on the choice of the column: with the datetime
    columns [DATE] and [obs], in this order, and no datetime index, the
    first one ([DATE]) stays a column and the last one ([obs]) becomes the
    index. *)
Lemma init_adopts_last_datetime_column :
  date_source_spec two_dates_table = FromColumn "DATE" /\
  fst (init_on two_dates_table) = inr (new_weather 4.54%Q (-75.1)%Q 1800%Q 1%nat) /\
  (index <$> frames (snd (init_on two_dates_table)) !! 1%nat) =
    Some (Datetime64 (days [(1999, 6, 1); (1999, 6, 2)])) /\
  (columns <$> frames (snd (init_on two_dates_table)) !! 1%nat) =
    Some ["TMIN"; "TMAX"; "RAIN"; "DATE"; "SRAD"] /\
  frames (snd (init_on two_dates_table)) !! 1%nat <> resolve_spec two_dates_table.
Proof. repeat split. discriminate. Qed.

(** * The writer *)

Section WriteClaims.
Context `{Formater}.



End WriteClaims.






(** * Further properties of the constructor *)

Lemma L_bind_inr {A B : Type} (m : L A) (k : A -> L B) d y d2 :
  (x ← m; k x) d = (inr y, d2) ->
  exists x d1, m d = (inr x, d1) /\ k x d1 = (inr y, d2).
Proof.
  unfold mbind, L_bind. destruct (m d) as [[e|x] d1]; [done|]. eauto.
Qed.

(** A constructor that returns has passed every step. *)
Lemma init_data_inr pars t rec :
  init_data pars t = (inr tt, rec) ->
  rename_columns pars t = (inr tt, mapped pars t) /\
  has_mandatory (mapped pars t) /\
  quality_control (mapped pars t) = (inr tt, mapped pars t) /\
  check_date_column (mapped pars t) = (inr tt, rec).
Proof.
  intros Hrun.
  destruct (fst (rename_columns pars t)) as [e|[]] eqn:Eren.
  { rewrite (init_data_rename_error pars t e Eren) in Hrun. done. }
  pose proof (rename_columns_pair pars t) as Hren. rewrite Eren in Hren.
  set (d := mapped pars t) in *.
  destruct (all (map (fun x => str_in x (columns d)) MANDATORY_DATA)) eqn:Em.
  2:{ rewrite (init_data_missing pars t d Hren) in Hrun; [done|].
      intros Hm. apply all_mandatory in Hm. congruence. }
  apply all_mandatory in Em.
  rewrite (init_data_qc pars t d Hren Em) in Hrun.
  pose proof (quality_control_run d) as Hq.
  destruct (fst (quality_control d)) as [e|[]] eqn:Eq; [done|].
  repeat split; try done.
  destruct (quality_control d) as [r d'] eqn:Eqc. simpl in Eq. subst r.
  revert Hq. repeat case_match; congruence.
Qed.

Lemma quality_control_inr d :
  quality_control d = (inr tt, d) ->
  fst (qc_temp d) = inr tt /\ fst (qc_rhum d) = inr tt /\
  fst (qc_rain d) = inr tt /\ fst (qc_srad d) = inr tt.
Proof.
  rewrite quality_control_run.
  destruct (fst (qc_temp d)) as [?|[]]; [done|].
  destruct (fst (qc_rhum d)) as [?|[]]; [done|].
  destruct (fst (qc_rain d)) as [?|[]]; [done|].
  destruct (fst (qc_srad d)) as [?|[]]; [done|]. done.
Qed.

Lemma qc_rhum_inr d : fst (qc_rhum d) = inr tt -> satisfied RHUM_QC d.
Proof.
  unfold qc_rhum. l_run. destruct (str_in "RHUM" (columns d)) eqn:Hin.
  2:{ intros _. left. by apply str_in_not_elem. }
  apply str_in_elem, assoc_keys in Hin as [s Hs]. rewrite Hs.
  destruct s as [l|l]; simpl; [|done]. rewrite zip_map_same.
  destruct (all _) eqn:E; [|done]. intros _. right. exists l. split; [done|].
  by apply (all_map_Forall _ _ _ float_le_rhum).
Qed.

Lemma qc_rain_inr d : fst (qc_rain d) = inr tt -> satisfied RAIN_QC d.
Proof.
  unfold qc_rain. l_run. destruct (assoc "RAIN" (cols d)) as [[l|l]|] eqn:Hs;
    simpl; try done.
  destruct (all _) eqn:E; [|done]. intros _. exists l. split; [done|].
  by apply (all_map_Forall _ _ _ float_le_nonneg).
Qed.

Lemma qc_srad_inr d : fst (qc_srad d) = inr tt -> satisfied SRAD_QC d.
Proof.
  unfold qc_srad. l_run. destruct (str_in "SRAD" (columns d)) eqn:Hin.
  2:{ intros _. left. by apply str_in_not_elem. }
  apply str_in_elem, assoc_keys in Hin as [s Hs]. rewrite Hs.
  destruct s as [l|l]; simpl; [|done].
  destruct (all _) eqn:E; [|done]. intros _. right. exists l. split; [done|].
  by apply (all_map_Forall _ _ _ float_le_nonneg).
Qed.

(** The temperature check passes on two float columns in order, and also on
    two datetime columns in order. *)
Lemma qc_temp_inr d :
  fst (qc_temp d) = inr tt ->
  satisfied TEMP_QC d \/
  exists a b, assoc "TMIN" (cols d) = Some (Datetime64 a) /\
              assoc "TMAX" (cols d) = Some (Datetime64 b).
Proof.
  unfold qc_temp. l_run.
  destruct (assoc "TMIN" (cols d)) as [smin|] eqn:Hmin; [|done].
  destruct (assoc "TMAX" (cols d)) as [smax|] eqn:Hmax; [|done].
  unfold series_le. destruct (Nat.eqb_spec (series_len smin) (series_len smax)) as [Hlen|];
    simpl; [|done].
  destruct smin as [a|a], smax as [b|b]; simpl; try done.
  - destruct (all _) eqn:E; [|done]. intros _. left. exists a, b.
    split; [done|]. split; [done|].
    by apply (all_zip_Forall2 float_le temp_row_ok) in E; [|apply float_le_temp|].
  - intros _. right. eauto.
Qed.

(** Float columns are never the date source: they stay where they are. *)
Lemma check_date_column_float d rec name l :
  NoDup (columns d) ->
  check_date_column d = (inr tt, rec) ->
  float_col d name l -> float_col rec name l.
Proof.
  intros Hnd Hrun Hl. rewrite (check_date_column_run d Hnd) in Hrun.
  destruct (is_datetime64_any_dtype (index d)); [by injection Hrun as <-|].
  destruct (last_datetime (cols d)) as [kv|] eqn:Elast; [|done].
  destruct (String.eqb (fst kv) ""); [done|]. injection Hrun as <-.
  apply last_datetime_Some in Elast as [Hkv Hdt].
  unfold float_col in *. simpl. rewrite assoc_assoc_del.
  destruct (String.eqb_spec name (fst kv)) as [->|]; [|done].
  rewrite (assoc_NoDup (fst kv) (snd kv)) in Hl; [|done|by destruct kv].
  injection Hl as Hl. by rewrite Hl in Hdt.
Qed.

Lemma check_date_column_columns d rec c :
  NoDup (columns d) ->
  check_date_column d = (inr tt, rec) ->
  c ∈ columns rec -> c ∈ columns d.
Proof.
  intros Hnd Hrun. rewrite (check_date_column_run d Hnd) in Hrun.
  destruct (is_datetime64_any_dtype (index d)); [by injection Hrun as <-|].
  destruct (last_datetime (cols d)) as [kv|] eqn:Elast; [|done].
  destruct (String.eqb (fst kv) ""); [done|]. injection Hrun as <-.
  unfold columns. simpl. rewrite keys_assoc_del. tauto.
Qed.

(** The date step leaves a well-formed table with a datetime index and as
    many rows as before. *)
Lemma check_date_column_shape d rec :
  wf_frame d ->
  check_date_column d = (inr tt, rec) ->
  wf_frame rec /\ is_datetime64_any_dtype (index rec) = true /\
  series_len (index rec) = series_len (index d).
Proof.
  intros [Hnd Hlen] Hrun. rewrite (check_date_column_run d Hnd) in Hrun.
  destruct (is_datetime64_any_dtype (index d)) eqn:Eidx.
  { injection Hrun as <-. by repeat split. }
  destruct (last_datetime (cols d)) as [kv|] eqn:Elast; [|done].
  destruct (String.eqb (fst kv) ""); [done|]. injection Hrun as <-.
  apply last_datetime_Some in Elast as [Hkv Hdt].
  assert (series_len (snd kv) = series_len (index d)) as Hkvlen.
  { rewrite Forall_forall in Hlen. by apply (Hlen kv). }
  split; [split|split]; simpl; try done.
  - by apply NoDup_assoc_del.
  - apply Forall_assoc_del. rewrite Forall_forall in Hlen |- *.
    intros kv' Hin. rewrite Hkvlen. by apply Hlen.
Qed.

Lemma init_inr w df t pars lat lon elev self w' :
  frames w !! df = Some t ->
  __init__ df pars lat lon elev w = (inr self, w') ->
  exists rec, init_data pars t = (inr tt, rec) /\
              frames w' !! data self = Some rec /\
              self = new_weather lat lon elev (length (frames w)) /\
              w' = mkWorld (frames w ++ [rec]) (files w).
Proof.
  intros Hdf Hrun. rewrite (init_run w df t) in Hrun by done.
  destruct (init_data pars t) as [[e|[]] rec]; simpl in Hrun; [done|].
  injection Hrun as <- <-. exists rec. repeat split.
  simpl. rewrite lookup_app_r; [|done]. by rewrite Nat.sub_diag.
Qed.

(** X1.  Whenever the constructor returns, the records it holds are a
    well-formed table (distinct labels, columns as long as the index) whose
    index is datetime-typed and which has exactly as many rows as the
    caller's table: no row is added or dropped. *)
Theorem init_records_shape w df t pars lat lon elev self w' :
  frames w !! df = Some t ->
  wf_frame t ->
  __init__ df pars lat lon elev w = (inr self, w') ->
  exists records,
    frames w' !! data self = Some records /\
    wf_frame records /\
    is_datetime64_any_dtype (index records) = true /\
    series_len (index records) = series_len (index t).
Proof.
  intros Hdf Hwf Hrun.
  destruct (init_inr w df t pars lat lon elev self w' Hdf Hrun) as (rec & Hinit & Hrec & _).
  apply init_data_inr in Hinit as (_ & _ & _ & Hdate).
  pose proof (rename_columns_wf pars t Hwf) as Hwfd.
  destruct (check_date_column_shape _ rec Hwfd Hdate) as (Hwfr & Hidx & Hlen).
  exists rec. repeat split; try done; try apply Hwfr.
  by rewrite Hlen, rename_columns_index.
Qed.

Lemma init_records_shape_witness :
  exists records,
    frames (snd (init_on two_dates_table)) !! 1%nat = Some records /\
    wf_frame records /\
    is_datetime64_any_dtype (index records) = true /\
    series_len (index records) = 2%nat.
Proof.
  apply (init_records_shape (mkWorld [two_dates_table] ∅) 0%nat two_dates_table []
           4.54%Q (-75.1)%Q 1800%Q (new_weather 4.54%Q (-75.1)%Q 1800%Q 1%nat)
           (snd (init_on two_dates_table)) eq_refl).
  - by apply wf_frameb_sound.
  - reflexivity.
Defined.

(** X2.  Whenever the constructor returns, the records satisfy the rules it
    checked: RAIN and SRAD are float columns without missing or negative
    values, RHUM (if it is a column) lies in [0,100] without missing values,
    and TMIN <= TMAX holds on every row, both being float columns without
    missing values, unless the table came with TMIN and TMAX both
    datetime-typed (which the comparison accepts as well). *)
Theorem init_records_quality w df t pars lat lon elev self w' :
  frames w !! df = Some t ->
  wf_frame t ->
  __init__ df pars lat lon elev w = (inr self, w') ->
  exists records,
    frames w' !! data self = Some records /\
    (exists l, float_col records "RAIN" l /\ Forall nonneg l) /\
    (exists l, float_col records "SRAD" l /\ Forall nonneg l) /\
    ("RHUM" ∉ columns records \/
     exists l, float_col records "RHUM" l /\ Forall rhum_ok l) /\
    ((exists a b, float_col records "TMIN" a /\ float_col records "TMAX" b /\
                  Forall2 temp_row_ok a b) \/
     (exists a b, assoc "TMIN" (cols (mapped pars t)) = Some (Datetime64 a) /\
                  assoc "TMAX" (cols (mapped pars t)) = Some (Datetime64 b))).
Proof.
  intros Hdf Hwf Hrun.
  destruct (init_inr w df t pars lat lon elev self w' Hdf Hrun) as (rec & Hinit & Hrec & _).
  apply init_data_inr in Hinit as (_ & Hm & Hqc & Hdate).
  pose proof (rename_columns_wf pars t Hwf) as [Hnd _].
  set (d := mapped pars t) in *.
  apply quality_control_inr in Hqc as (Htemp & Hrhum & Hrain & Hsrad).
  pose proof (check_date_column_float d rec) as Hkeep.
  exists rec. split; [done|]. repeat split.
  - destruct (qc_rain_inr d Hrain) as (l & Hl & Hall). exists l. eauto.
  - destruct (qc_srad_inr d Hsrad) as [Hno|(l & Hl & Hall)].
    + exfalso. apply Hno, Hm, elem_mandatory_SRAD.
    + exists l. eauto.
  - destruct (qc_rhum_inr d Hrhum) as [Hno|(l & Hl & Hall)].
    + left. intros Hin. apply Hno. by eapply check_date_column_columns.
    + right. exists l. eauto.
  - destruct (qc_temp_inr d Htemp) as [(a & b & Ha & Hb & Hall)|Hdt].
    + left. exists a, b. eauto.
    + by right.
Qed.

Lemma init_records_quality_witness :
  exists records,
    frames (snd sample_run) !! 1%nat = Some records /\
    (exists l, float_col records "RAIN" l /\ Forall nonneg l) /\
    (exists l, float_col records "SRAD" l /\ Forall nonneg l) /\
    ("RHUM" ∉ columns records \/
     exists l, float_col records "RHUM" l /\ Forall rhum_ok l) /\
    ((exists a b, float_col records "TMIN" a /\ float_col records "TMAX" b /\
                  Forall2 temp_row_ok a b) \/
     (exists a b, assoc "TMIN" (cols (mapped sample_pars sample_table)) = Some (Datetime64 a) /\
                  assoc "TMAX" (cols (mapped sample_pars sample_table)) = Some (Datetime64 b))).
Proof.
  apply (init_records_quality sample_world 0%nat sample_table sample_pars
           4.54%Q (-75.1)%Q 1800%Q (new_weather 4.54%Q (-75.1)%Q 1800%Q 1%nat)
           (snd sample_run) eq_refl).
  - by apply wf_frameb_sound.
  - reflexivity.
Defined.

(** ** The mapping *)

Lemma mapped_cons kv pars t :
  mapped (kv :: pars) t =
    if negb (str_in (snd kv) PARS_DATA) then t
    else if negb (str_in (fst kv) PARS_DATA) then
      match assoc (fst kv) (cols t) with
      | None => t
      | Some s => mapped pars (frame_drop (fst kv) (frame_setitem (snd kv) s t))
      end
    else mapped pars t.
Proof.
  unfold mapped. rewrite rename_columns_cons.
  destruct (negb (str_in (snd kv) PARS_DATA)); [done|].
  destruct (negb (str_in (fst kv) PARS_DATA)); [|done].
  by destruct (assoc (fst kv) (cols t)).
Qed.

Lemma renamed_cons kv pars :
  renamed_keys (kv :: pars) =
    (if renames kv then fst kv :: renamed_keys pars else renamed_keys pars) /\
  renamed_targets (kv :: pars) =
    (if renames kv then snd kv :: renamed_targets pars else renamed_targets pars).
Proof. unfold renamed_keys, renamed_targets. simpl. by destruct (renames kv). Qed.

(** A column that is neither renamed nor a target keeps its data. *)
Lemma mapped_untouched pars t c :
  c ∉ renamed_keys pars -> c ∉ renamed_targets pars ->
  assoc c (cols (mapped pars t)) = assoc c (cols t).
Proof.
  revert t. induction pars as [|kv pars IH]; intros t Hk Hv; [done|].
  rewrite mapped_cons.
  destruct (renamed_cons kv pars) as [Ek Ev]. rewrite Ek in Hk. rewrite Ev in Hv.
  unfold renames in Hk, Hv.
  destruct (str_in (snd kv) PARS_DATA); simpl in *; [|done].
  destruct (str_in (fst kv) PARS_DATA); simpl in *; [by apply IH|].
  apply not_elem_of_cons in Hk as [Hck Hk]. apply not_elem_of_cons in Hv as [Hcv Hv].
  destruct (assoc (fst kv) (cols t)) as [s|]; [|done].
  rewrite IH by done. simpl. rewrite assoc_assoc_del, assoc_assoc_set.
  apply String.eqb_neq in Hck, Hcv. by rewrite Hck, Hcv.
Qed.

(** X3.  The mapping moves data and does not change it.  For a valid
    mapping whose renamings have distinct targets, each target column holds
    the data of its source column (whether or not the table already had a
    column of that name, which is then overwritten), every column that is
    neither a renamed source nor a target holds what it held, and the index
    is the same. *)
Theorem mapping_preserves_data pars t :
  valid_mapping pars t ->
  NoDup (renamed_targets pars) ->
  index (mapped pars t) = index t /\
  (forall key value, (key, value) ∈ pars -> renames (key, value) = true ->
     assoc value (cols (mapped pars t)) = assoc key (cols t)) /\
  (forall c, c ∉ renamed_keys pars -> c ∉ renamed_targets pars ->
     assoc c (cols (mapped pars t)) = assoc c (cols t)).
Proof.
  intros Hvalid Hnd. split; [apply rename_columns_index|].
  split; [|intros c; apply mapped_untouched].
  revert t Hvalid Hnd. induction pars as [|kv pars IH]; intros t [Hkeys Hall] Hnd key value Hin Hren.
  { inversion Hin. }
  simpl in Hkeys. apply NoDup_cons in Hkeys as [Hk Hkeys].
  apply Forall_cons in Hall as [[Hv Hkcol] Hall].
  destruct (renamed_cons kv pars) as [_ Ev]. rewrite Ev in Hnd. clear Ev.
  rewrite mapped_cons.
  apply elem_of_cons in Hin as [<-|Hin].
  - (* the renaming at hand *)
    rewrite Hren in Hnd. apply NoDup_cons in Hnd as [Hfresh Hnd].
    unfold renames in Hren. simpl in *. apply andb_true_iff in Hren as [Hrv Hrk].
    rewrite Hrv, Hrk. simpl.
    destruct Hkcol as [Hkcol|Hkcol].
    { apply str_in_elem in Hkcol. apply negb_true_iff in Hrk. congruence. }
    apply assoc_keys in Hkcol as [s Hs]. rewrite Hs.
    rewrite mapped_untouched; [|intros Hbad; apply renamed_keys_not_data in Hbad;
      apply Hbad; by apply str_in_elem|done].
    simpl. rewrite assoc_assoc_del, assoc_assoc_set, String.eqb_refl.
    destruct (String.eqb_spec value key) as [->|]; [|done].
    apply negb_true_iff in Hrk. congruence.
  - (* a later renaming *)
    assert (key <> fst kv) as Hne.
    { intros ->. apply Hk. apply list_elem_of_fmap. by exists (fst kv, value). }
    assert (str_in key PARS_DATA = false) as Hkey.
    { unfold renames in Hren. simpl in Hren. apply andb_true_iff in Hren as [_ Hren].
      by apply negb_true_iff in Hren. }
    apply str_in_elem in Hv. rewrite Hv. simpl.
    destruct (str_in (fst kv) PARS_DATA) eqn:Ek; simpl.
    + apply IH; try done. unfold renames in Hnd. by rewrite Hv, Ek in Hnd.
    + destruct Hkcol as [Hkcol|Hkcol]; [apply str_in_elem in Hkcol; congruence|].
      apply assoc_keys in Hkcol as [s Hs]. rewrite Hs.
      unfold renames in Hnd. rewrite Hv, Ek in Hnd. simpl in Hnd.
      apply NoDup_cons in Hnd as [_ Hnd].
      assert (valid_mapping pars (frame_drop (fst kv) (frame_setitem (snd kv) s t)))
        as Hvalid'.
      { split; [done|]. rewrite Forall_forall in Hall |- *. intros kv' Hin'.
        destruct (Hall kv' Hin') as [Hv' Hk']. split; [done|].
        destruct Hk' as [Hk'|Hk']; [by left|right].
        unfold columns. simpl. apply keys_assoc_del. split.
        - intros E. apply Hk. rewrite <- E. apply list_elem_of_fmap. by exists kv'.
        - apply keys_assoc_set. by right. }
      rewrite (IH _ Hvalid' Hnd key value Hin Hren).
      simpl. rewrite assoc_assoc_del, assoc_assoc_set.
      apply String.eqb_neq in Hne. rewrite Hne.
      destruct (String.eqb_spec key (snd kv)) as [E|]; [|done].
      rewrite E in Hkey. congruence.
Qed.

Lemma mapping_preserves_data_witness :
  index (mapped sample_pars sample_table) = index sample_table /\
  (forall key value, (key, value) ∈ sample_pars -> renames (key, value) = true ->
     assoc value (cols (mapped sample_pars sample_table)) = assoc key (cols sample_table)) /\
  (forall c, c ∉ renamed_keys sample_pars -> c ∉ renamed_targets sample_pars ->
     assoc c (cols (mapped sample_pars sample_table)) = assoc c (cols sample_table)).
Proof.
  apply mapping_preserves_data.
  - split.
    + by apply distinct_NoDup.
    + repeat (apply Forall_cons; split;
        [split; [by apply str_in_elem
                | first [left; by apply str_in_elem | right; by apply str_in_elem]]|]).
      apply Forall_nil_2.
  - by apply distinct_NoDup.
Defined.

Lemma rename_columns_filter pars t :
  (forall kv, kv ∈ pars -> snd kv ∈ PARS_DATA) ->
  rename_columns pars t = rename_columns (List.filter renames pars) t.
Proof.
  revert t. induction pars as [|kv pars IH]; intros t Hall; [done|].
  assert (str_in (snd kv) PARS_DATA = true) as Hv.
  { apply str_in_elem, Hall. left. }
  assert (forall kv', kv' ∈ pars -> snd kv' ∈ PARS_DATA) as Hall'.
  { intros kv' Hin. apply Hall. by right. }
  rewrite rename_columns_cons. simpl List.filter. unfold renames at 1.
  rewrite Hv. simpl. destruct (str_in (fst kv) PARS_DATA) eqn:Ek; simpl.
  - by apply IH.
  - rewrite rename_columns_cons, Hv, Ek. simpl.
    destruct (assoc (fst kv) (cols t)); [by apply IH|done].
Qed.

(** X4.  An entry of the mapping whose key is itself the name of a data
    variable does nothing, whatever its value: with every value a data
    variable, the constructor behaves as on the mapping without those
    entries.  A column that already bears a canonical name cannot be
    renamed. *)
Theorem init_ignores_canonical_keys w df pars lat lon elev :
  (forall kv, kv ∈ pars -> snd kv ∈ PARS_DATA) ->
  __init__ df pars lat lon elev w =
  __init__ df (List.filter renames pars) lat lon elev w.
Proof.
  intros Hall.
  destruct (frames w !! df) as [t|] eqn:Hdf.
  - rewrite !(init_run w df t) by done.
    assert (init_data pars t = init_data (List.filter renames pars) t) as ->; [|done].
    unfold init_data, mbind, L_bind. by rewrite (rename_columns_filter pars t Hall).
  - by rewrite !init_dangling.
Qed.

Lemma init_ignores_canonical_keys_witness :
  __init__ 0%nat [("TMAX", "TMIN"); ("RAIN", "SRAD")] 4.54%Q (-75.1)%Q 1800%Q
    (mkWorld [hot_table] ∅) =
  __init__ 0%nat [] 4.54%Q (-75.1)%Q 1800%Q (mkWorld [hot_table] ∅).
Proof.
  apply (init_ignores_canonical_keys (mkWorld [hot_table] ∅) 0%nat
           [("TMAX", "TMIN"); ("RAIN", "SRAD")]).
  intros kv Hin. apply str_in_elem.
  apply elem_of_cons in Hin as [->|Hin]; [done|].
  apply elem_of_cons in Hin as [->|Hin]; [done|]. inversion Hin.
Defined.

Lemma rename_columns_app pre rest t :
  rename_columns (pre ++ rest)%list t =
    match fst (rename_columns pre t) with
    | inl e => (inl e, mapped pre t)
    | inr _ => rename_columns rest (mapped pre t)
    end.
Proof.
  revert t. induction pre as [|kv pre IH]; intros t; [done|].
  change ((kv :: pre) ++ rest)%list with (kv :: (pre ++ rest)%list).
  rewrite mapped_cons, !rename_columns_cons.
  destruct (negb (str_in (snd kv) PARS_DATA)); [done|].
  destruct (negb (str_in (fst kv) PARS_DATA)); [|apply IH].
  destruct (assoc (fst kv) (cols t)); [apply IH|done].
Qed.

(** X5.  A mapping value that is not a data variable stops the
    constructor: when the entries before it are valid, the error is the
    assertion that names this value, whatever the table and the later
    entries are. *)
Theorem init_invalid_variable_name w df t pre key value post lat lon elev :
  frames w !! df = Some t ->
  valid_mapping pre t ->
  value ∉ PARS_DATA ->
  fst (__init__ df (pre ++ (key, value) :: post)%list lat lon elev w) =
    inl (AssertionError (value +:+ " is not a valid variable name")).
Proof.
  intros Hdf Hpre Hv.
  apply (init_fails_with w df t _ lat lon elev _ (mapped pre t) Hdf).
  apply L_seq_err. rewrite rename_columns_app, (rename_columns_ok pre t Hpre).
  by apply rename_columns_invalid.
Qed.

Lemma init_invalid_variable_name_witness :
  fst (__init__ 0%nat [("tn", "TMIN"); ("TMAX", "Tmax"); ("nowhere", "RAIN")]
         4.54%Q (-75.1)%Q 1800%Q (mkWorld [raw_table] ∅)) =
    inl (AssertionError "Tmax is not a valid variable name").
Proof.
  apply (init_invalid_variable_name (mkWorld [raw_table] ∅) 0%nat raw_table
           [("tn", "TMIN")] "TMAX" "Tmax" [("nowhere", "RAIN")] 4.54%Q (-75.1)%Q 1800%Q eq_refl).
  - split; [by apply distinct_NoDup|].
    apply Forall_cons. split; [|apply Forall_nil_2].
    split; [by apply str_in_elem | right; by apply str_in_elem].
  - by apply str_in_not_elem.
Defined.

(** X6.  A mapping key that is neither a data variable nor a column of the
    table stops the constructor with [KeyError] on that key, when the
    entries before it are valid and its value is a data variable. *)
Theorem init_missing_source_column w df t pre key value post lat lon elev :
  frames w !! df = Some t ->
  valid_mapping pre t ->
  value ∈ PARS_DATA ->
  key ∉ PARS_DATA ->
  key ∉ columns t ->
  fst (__init__ df (pre ++ (key, value) :: post)%list lat lon elev w) = inl (KeyError key).
Proof.
  intros Hdf Hpre Hv Hk Hcol.
  apply (init_fails_with w df t _ lat lon elev _ (mapped pre t) Hdf).
  apply L_seq_err. rewrite rename_columns_app.
  pose proof (rename_columns_ok pre t Hpre) as Hok. rewrite Hok.
  rewrite rename_columns_cons. simpl.
  apply str_in_elem in Hv. apply str_in_not_elem in Hk. rewrite Hv, Hk. simpl.
  assert (assoc key (cols (mapped pre t)) = None) as ->; [|done].
  apply assoc_None. rewrite (rename_columns_columns pre t key Hok).
  intros [[Hin _]|Hin]; [done|].
  apply renamed_targets_data, str_in_elem in Hin. congruence.
Qed.

Lemma init_missing_source_column_witness :
  fst (__init__ 0%nat [("tn", "TMIN"); ("tx", "TMAX")]
         4.54%Q (-75.1)%Q 1800%Q (mkWorld [raw_table] ∅)) = inl (KeyError "tx").
Proof.
  apply (init_missing_source_column (mkWorld [raw_table] ∅) 0%nat raw_table
           [("tn", "TMIN")] "tx" "TMAX" [] 4.54%Q (-75.1)%Q 1800%Q eq_refl).
  - split; [by apply distinct_NoDup|].
    apply Forall_cons. split; [|apply Forall_nil_2].
    split; [by apply str_in_elem | right; by apply str_in_elem].
  - by apply str_in_elem.
  - by apply str_in_not_elem.
  - by apply str_in_not_elem.
Defined.

(** X7.  A datetime column whose label is the empty string is no date
    source: when the index is not datetime-typed and the last datetime
    column bears the empty label, the constructor raises the date assertion
    although a datetime column exists. *)
Theorem init_unnamed_date_column w df t pars lat lon elev d s :
  frames w !! df = Some t ->
  wf_frame t ->
  reaches_date_step pars t d ->
  is_datetime64_any_dtype (index d) = false ->
  last_datetime (cols d) = Some ("", s) ->
  fst (__init__ df pars lat lon elev w) = inl MissingDateColumnError.
Proof.
  intros Hdf Hwf Hreach Eidx Elast.
  pose proof (init_data_date pars t d Hreach) as Hinit.
  destruct Hreach as (Hren & _ & _).
  assert (NoDup (columns d)) as Hnd.
  { rewrite (mapped_of_run pars t d Hren). by apply rename_columns_wf. }
  rewrite (check_date_column_run d Hnd), Eidx, Elast in Hinit. simpl in Hinit.
  by apply (init_fails_with w df t pars lat lon elev _ d Hdf).
Qed.

Lemma init_unnamed_date_column_witness :
  fst (init_on unnamed_date_table) =
    inl (AssertionError "At least one of the data columns must be a date").
Proof.
  apply (init_unnamed_date_column (mkWorld [unnamed_date_table] ∅) 0%nat
           unnamed_date_table [] 4.54%Q (-75.1)%Q 1800%Q unnamed_date_table
           (Datetime64 (days [(2000, 1, 1); (2000, 1, 2)])) eq_refl).
  - by apply wf_frameb_sound.
  - by repeat split.
  - reflexivity.
  - reflexivity.
Defined.

(** * Further properties of the writer *)

Lemma datetime_index s : is_datetime64_any_dtype s = true -> exists idx, s = Datetime64 idx.
Proof. destruct s; [done|eauto]. Qed.

Section WriteMore.
Context `{Formater}.



Lemma write_files_through self folder t ys p :
  (exists v, forall fs, write_files self folder t ys fs !! p = Some v) \/
  (forall fs, write_files self folder t ys fs !! p = fs !! p).
Proof.
  unfold write_files. induction ys as [|y ys IH]; [by right|].
  simpl. destruct IH as [[v Hv]|Hthrough].
  - left. exists v. intros fs. apply Hv.
  - destruct (decide (file_path self folder y = p)) as [<-|Hne].
    + left. exists (file_text self t y). intros fs.
      by rewrite Hthrough, lookup_insert_eq.
    + right. intros fs. by rewrite Hthrough, lookup_insert_ne.
Qed.

Lemma write_files_twice self folder t ys fs :
  write_files self folder t ys (write_files self folder t ys fs) =
  write_files self folder t ys fs.
Proof.
  apply map_eq. intros p.
  destruct (write_files_through self folder t ys p) as [[v Hv]|Hthrough].
  - by rewrite !Hv.
  - by rewrite !Hthrough.
Qed.




(** X13.  Only the calendar date of the start counts: two managements
    whose start dates fall on the same day, at whatever time of the day,
    make [write] do the same. *)
Theorem write_start_day_only self folder man1 man2 w :
  date_of (sim_start man1) = date_of (sim_start man2) ->
  write self folder (Some man1) w = write self folder (Some man2) w.
Proof.
  unfold date_of. intros [= Ey Em Ed]. unfold write. by rewrite Ey, Em, Ed.
Qed.
End WriteMore.






Lemma write_start_day_only_witness :
  write_on station june_table (Some (mkManagement (mkTimestamp 2000 6 2 43200000000000))) =
  write_on station june_table (Some june_second).
Proof.
  apply (@write_start_day_only plain_formater). reflexivity.
Defined.

(** * The date token of a data line *)

Lemma month_cases m :
  1 <= m <= 12 ->
  m = 1 \/ m = 2 \/ m = 3 \/ m = 4 \/ m = 5 \/ m = 6 \/
  m = 7 \/ m = 8 \/ m = 9 \/ m = 10 \/ m = 11 \/ m = 12.
Proof. lia. Qed.

Ltac each_month m Hm :=
  destruct (month_cases m Hm) as [->|[->|[->|[->|[->|[->|[->|[->|[->|[->|[->| ->]]]]]]]]]]].

Ltac run_day_of_year :=
  unfold valid_date, day_of_year, days_in_month in *; simpl in *.

(** The day of the year of a calendar date lies between 1 and 366. *)
Lemma day_of_year_range t : valid_date t -> 1 <= day_of_year t <= 366.
Proof.
  destruct t as [y m d n]. intros [Hm Hd]. simpl in Hm, Hd.
  each_month m Hm; run_day_of_year; destruct (is_leap y); lia.
Qed.

(** Within a year, different dates have different days of the year. *)
Lemma day_of_year_inj a b :
  valid_date a -> valid_date b -> ts_year a = ts_year b ->
  day_of_year a = day_of_year b -> date_of a = date_of b.
Proof.
  destruct a as [y m1 d1 n1], b as [y2 m2 d2 n2]. unfold date_of.
  intros [Hm1 Hd1] [Hm2 Hd2] Hy. simpl in Hm1, Hd1, Hm2, Hd2, Hy. subst y2.
  simpl ts_year. simpl ts_month. simpl ts_day.
  each_month m1 Hm1; each_month m2 Hm2; run_day_of_year;
    destruct (is_leap y); intros E; first [lia | (f_equal; lia)].
Qed.

Lemma three_digits_int_of n : 1 <= n <= 366 -> int_of (zfill 3 (str n)) = n.
Proof.
  intros Hn. apply Z.eqb_eq.
  apply (range_check (fun n => int_of (zfill 3 (str n)) =? n) 1 367); [by vm_compute|lia].
Qed.

Lemma three_digits_length n : 1 <= n <= 366 -> String.length (zfill 3 (str n)) = 3%nat.
Proof.
  intros Hn. apply Nat.eqb_eq.
  apply (range_check (fun n => Nat.eqb (String.length (zfill 3 (str n))) 3) 1 367);
    [by vm_compute|lia].
Qed.

Lemma append_length s1 s2 :
  String.length (s1 +:+ s2) = (String.length s1 + String.length s2)%nat.
Proof. induction s1 as [|c s1 IH]; [reflexivity|simpl; by rewrite IH]. Qed.

(** X14.  The date token of a data line, [strftime('%y%j')], is five
    characters wide for every calendar date; and two records of the same
    year get the same token only if they bear the same date. *)
Theorem date_token a b :
  valid_date a -> valid_date b ->
  String.length (strftime_yj a) = 5%nat /\
  (ts_year a = ts_year b -> strftime_yj a = strftime_yj b -> date_of a = date_of b).
Proof.
  intros Ha Hb. split.
  - unfold strftime_yj. rewrite append_length, three_digits_length;
      [|by apply day_of_year_range].
    pose proof (two_digits_shape (ts_year a mod 100) (mod100_range _)) as Hs.
    fold (two_digits (ts_year a mod 100)).
    by destruct (two_digits (ts_year a mod 100)) as [|? [|? [|]]].
  - intros Hy E. unfold strftime_yj in E. rewrite Hy in E.
    apply String.app_inj in E.
    apply day_of_year_inj; try done.
    rewrite <- (three_digits_int_of (day_of_year a)) by (by apply day_of_year_range).
    rewrite <- (three_digits_int_of (day_of_year b)) by (by apply day_of_year_range).
    by rewrite E.
Qed.

Lemma date_token_witness :
  String.length (strftime_yj (datetime 2000 12 31)) = 5%nat /\
  (ts_year (datetime 2000 12 31) = ts_year (datetime 2000 3 1) ->
   strftime_yj (datetime 2000 12 31) = strftime_yj (datetime 2000 3 1) ->
   date_of (datetime 2000 12 31) = date_of (datetime 2000 3 1)).
Proof.
  apply date_token; split; simpl; (lia || (vm_compute; split; discriminate)).
Defined.

(** * [__repr__] *)

Lemma ts_leb_total a b : ts_leb a b = false -> ts_leb b a = true.
Proof.
  unfold ts_leb, ts_compare.
  destruct (Z.compare_spec (ts_year a) (ts_year b)),
           (Z.compare_spec (ts_year b) (ts_year a)); try lia; try done;
  destruct (Z.compare_spec (ts_month a) (ts_month b)),
           (Z.compare_spec (ts_month b) (ts_month a)); try lia; try done;
  destruct (Z.compare_spec (ts_day a) (ts_day b)),
           (Z.compare_spec (ts_day b) (ts_day a)); try lia; try done;
  destruct (N.compare_spec (ts_nanos a) (ts_nanos b)),
           (N.compare_spec (ts_nanos b) (ts_nanos a)); try lia; done.
Qed.

(** The minimum of a non-empty index is one of its dates and is no later
    than any of them. *)
Lemma fold_ts_min l x :
  fold_left ts_min l x ∈ x :: l /\
  forall y, y ∈ x :: l -> ts_le (fold_left ts_min l x) y.
Proof.
  revert x. induction l as [|z l IH]; intros x; simpl.
  - split; [left|]. intros y Hy. apply elem_of_cons in Hy as [->|Hy]; [apply ts_leb_refl|inversion Hy].
  - destruct (IH (ts_min x z)) as [Hin Hle]. split.
    + apply elem_of_cons in Hin as [->|Hin]; [|by do 2 right].
      unfold ts_min. destruct (ts_leb x z); [left|right; left].
    + intros y Hy.
      assert (ts_le (ts_min x z) x /\ ts_le (ts_min x z) z) as [Hx Hz].
      { unfold ts_min, ts_le. destruct (ts_leb x z) eqn:E.
        - split; [apply ts_leb_refl|done].
        - split; [by apply ts_leb_total|apply ts_leb_refl]. }
      apply elem_of_cons in Hy as [->|Hy].
      { etrans; [apply Hle; left|done]. }
      apply elem_of_cons in Hy as [->|Hy].
      { etrans; [apply Hle; left|done]. }
      apply Hle. by right.
Qed.

Lemma fold_ts_max l x :
  fold_left ts_max l x ∈ x :: l /\
  forall y, y ∈ x :: l -> ts_le y (fold_left ts_max l x).
Proof.
  revert x. induction l as [|z l IH]; intros x; simpl.
  - split; [left|]. intros y Hy. apply elem_of_cons in Hy as [->|Hy]; [apply ts_leb_refl|inversion Hy].
  - destruct (IH (ts_max x z)) as [Hin Hle]. split.
    + apply elem_of_cons in Hin as [->|Hin]; [|by do 2 right].
      unfold ts_max. destruct (ts_leb x z); [right; left|left].
    + intros y Hy.
      assert (ts_le x (ts_max x z) /\ ts_le z (ts_max x z)) as [Hx Hz].
      { unfold ts_max, ts_le. destruct (ts_leb x z) eqn:E.
        - split; [done|apply ts_leb_refl].
        - split; [apply ts_leb_refl|by apply ts_leb_total]. }
      apply elem_of_cons in Hy as [->|Hy].
      { etrans; [done|apply Hle; left]. }
      apply elem_of_cons in Hy as [->|Hy].
      { etrans; [done|apply Hle; left]. }
      apply Hle. by right.
Qed.

Section Repr.
Context `{Display}.

(** X15.  On a station with at least one dated record, [__repr__] reports
    as start and end two dates of the records, the earliest and the latest,
    in whatever order the records are; it changes nothing in the store; it
    raises only if the text of the averages does. *)
Theorem repr_dates self w t idx :
  frames w !! data self = Some t ->
  index t = Datetime64 idx ->
  idx <> [] ->
  exists lo hi,
    lo ∈ idx /\ hi ∈ idx /\
    (forall x, x ∈ idx -> ts_le lo x /\ ts_le x hi) /\
    __repr__ self w =
      (match repr_mean t with
       | inr mean =>
           inr (((("Weather data at " +:+ format_3f (LON self) +:+ "°, "
                   +:+ format_3f (LAT self) +:+ "°" +:+ newline)
                  +:+ "  Date start: " +:+ strftime_ymd lo +:+ newline)
                 +:+ "  Date end: " +:+ strftime_ymd hi +:+ newline)
                +:+ "Average values:" +:+ newline +:+ mean)
       | inl e => inl e
       end, w).
Proof.
  intros Ht Eidx Hne. destruct idx as [|x l]; [done|].
  destruct (fold_ts_min l x) as [Hlo Hmin]. destruct (fold_ts_max l x) as [Hhi Hmax].
  exists (fold_left ts_min l x), (fold_left ts_max l x).
  split; [done|]. split; [done|]. split; [by split; [apply Hmin|apply Hmax]|].
  unfold __repr__, load, M_lift, mbind, mret, M_bind, M_ret.
  repeat first [rewrite Ht | rewrite Eidx | progress (cbv iota beta zeta)
               | progress (simpl index_extreme)].
  by destruct (repr_mean t).
Qed.

(** X16.  On a station whose records have no row, [__repr__] raises
    [ValueError]: the extreme of an empty index is not a date. *)
Theorem repr_no_records self w t :
  frames w !! data self = Some t ->
  index t = Datetime64 [] ->
  __repr__ self w = (inl ValueError, w).
Proof.
  intros Ht Eidx. unfold __repr__, load, M_lift, mbind, mret, M_bind, M_ret.
  rewrite Ht. cbv iota beta zeta. by rewrite Eidx.
Qed.
End Repr.

Lemma repr_dates_witness :
  exists lo hi,
    lo ∈ days [(2000, 1, 2); (2000, 1, 1); (2001, 1, 1)] /\
    hi ∈ days [(2000, 1, 2); (2000, 1, 1); (2001, 1, 1)] /\
    (forall x, x ∈ days [(2000, 1, 2); (2000, 1, 1); (2001, 1, 1)] ->
       ts_le lo x /\ ts_le x hi) /\
    @__repr__ plain_display station (mkWorld [unsorted_table] ∅) =
      (match @repr_mean plain_display unsorted_table with
       | inr mean =>
           inr (((("Weather data at " +:+ @format_3f plain_display (LON station) +:+ "°, "
                   +:+ @format_3f plain_display (LAT station) +:+ "°" +:+ newline)
                  +:+ "  Date start: " +:+ strftime_ymd lo +:+ newline)
                 +:+ "  Date end: " +:+ strftime_ymd hi +:+ newline)
                +:+ "Average values:" +:+ newline +:+ mean)
       | inl e => inl e
       end, mkWorld [unsorted_table] ∅).
Proof.
  apply (@repr_dates plain_display station (mkWorld [unsorted_table] ∅) unsorted_table
           (days [(2000, 1, 2); (2000, 1, 1); (2001, 1, 1)])); [reflexivity|reflexivity|].
  discriminate.
Defined.

Lemma repr_no_records_witness :
  @__repr__ plain_display station (mkWorld [empty_table] ∅) =
    (inl ValueError, mkWorld [empty_table] ∅).
Proof.
  apply (@repr_no_records plain_display station (mkWorld [empty_table] ∅) empty_table);
    reflexivity.
Defined.

Example repr_unsorted :
  fst (@__repr__ plain_display station (mkWorld [unsorted_table] ∅)) =
    inr ("Weather data at -751/10°, 454/100°" +:+ newline
         +:+ "  Date start: 2000-01-01" +:+ newline
         +:+ "  Date end: 2001-01-01" +:+ newline
         +:+ "Average values:" +:+ newline +:+ "TMIN TMAX RAIN SRAD").
Proof. reflexivity. Qed.

(** * The listing functions *)


(** * The listing functions *)

Lemma listing_check_all : forallb listing_check PARS_DESC = true.
Proof. by vm_compute. Qed.

Lemma eqb_iff_elem (a b : bool) (P Q : Prop) :
  (a = true <-> P) -> (b = true <-> Q) -> Bool.eqb a b = true -> (P <-> Q).
Proof. intros HP HQ E. apply Bool.eqb_prop in E. subst b. by rewrite <- HP, <- HQ. Qed.

(** X17.  The two listings split the catalogue: the line of an entry is
    printed by [list_station_parameters] exactly when its name is a station
    parameter, by [list_weather_variables] exactly when it is a data
    variable, and a name is one or the other, never both.  The names
    [list_weather_variables] prints are exactly the values the constructor
    accepts in a mapping. *)
Theorem listings_split_catalogue key desc :
  (key, desc) ∈ PARS_DESC ->
  (listing_line key desc ∈ list_station_parameters <-> key ∈ PARS_STATION) /\
  (listing_line key desc ∈ list_weather_variables <-> key ∈ PARS_DATA) /\
  (key ∈ PARS_STATION <-> key ∉ PARS_DATA) /\
  (forall value, value ∈ PARS_DATA <->
     exists text, (value, text) ∈ PARS_DESC /\
                  listing_line value text ∈ list_weather_variables).
Proof.
  assert (forall k d, (k, d) ∈ PARS_DESC ->
    (listing_line k d ∈ list_station_parameters <-> k ∈ PARS_STATION) /\
    (listing_line k d ∈ list_weather_variables <-> k ∈ PARS_DATA) /\
    (k ∈ PARS_STATION <-> k ∉ PARS_DATA)) as Hentry.
  { intros k d Hin. pose proof listing_check_all as Hall.
    rewrite forallb_forall in Hall.
    specialize (Hall (k, d) (proj1 (list_elem_of_In _ _) Hin)).
    unfold listing_check in Hall. simpl in Hall.
    apply andb_true_iff in Hall as [Hall H3]. apply andb_true_iff in Hall as [H1 H2].
    split; [|split].
    - by apply (eqb_iff_elem _ _ _ _ (str_in_elem _ _) (str_in_elem _ _)).
    - by apply (eqb_iff_elem _ _ _ _ (str_in_elem _ _) (str_in_elem _ _)).
    - apply Bool.eqb_prop in H3. rewrite <- str_in_not_elem, <- str_in_elem, H3.
      by destruct (str_in k PARS_DATA). }
  intros Hin. destruct (Hentry key desc Hin) as (H1 & H2 & H3).
  split; [done|]. split; [done|]. split; [done|].
  intros value. split.
  - intros Hv. assert (value ∈ map fst PARS_DESC) as Hkey.
    { unfold PARS_DATA in Hv. apply list_elem_of_In, filter_In in Hv as [Hv _].
      by apply list_elem_of_In. }
    apply list_elem_of_fmap in Hkey as ([k d] & -> & Hkd).
    exists d. split; [done|]. by apply (Hentry k d Hkd).
  - intros (text & Hkd & Hline). by apply (Hentry value text Hkd).
Qed.

Lemma listings_split_catalogue_witness :
  (listing_line "SRAD" "Daily solar radiation, MJ m-2 day-1" ∈ list_station_parameters
     <-> "SRAD" ∈ PARS_STATION) /\
  (listing_line "SRAD" "Daily solar radiation, MJ m-2 day-1" ∈ list_weather_variables
     <-> "SRAD" ∈ PARS_DATA) /\
  ("SRAD" ∈ PARS_STATION <-> "SRAD" ∉ PARS_DATA) /\
  (forall value, value ∈ PARS_DATA <->
     exists text, (value, text) ∈ PARS_DESC /\
                  listing_line value text ∈ list_weather_variables).
Proof.
  apply listings_split_catalogue.
  apply list_elem_of_In. do 9 right. left. reflexivity.
Defined.

Example list_station_parameters_first :
  head list_station_parameters = Some "INSI: Institute and site code" /\
  length list_station_parameters = 8%nat /\
  length list_weather_variables = 10%nat.
Proof. by vm_compute. Qed.

(** * Truncation, year by year *)

Lemma filter_filter_keep {A : Type} (f g : A -> bool) (l : list A) :
  (forall x, f x = true -> g x = true) ->
  List.filter f (List.filter g l) = List.filter f l.
Proof.
  intros Hfg. induction l as [|x l IH]; [done|]. simpl.
  destruct (g x) eqn:Eg; simpl; [by rewrite IH|].
  rewrite IH. destruct (f x) eqn:Ef; [|done]. apply Hfg in Ef. congruence.
Qed.

Lemma date_leb_year s x : ts_year s < ts_year x -> date_leb (date_of s) (date_of x) = true.
Proof.
  intros Hlt. unfold date_leb, date_of, ts_leb, ts_compare, datetime. simpl.
  by apply Z.compare_lt_iff in Hlt as ->.
Qed.

Lemma date_leb_year_ge s x :
  date_leb (date_of s) (date_of x) = true -> ts_year s <= ts_year x.
Proof.
  unfold date_leb, date_of, ts_leb, ts_compare, datetime. simpl.
  destruct (Z.compare_spec (ts_year s) (ts_year x)); try lia; done.
Qed.

Section Truncation.
Context `{Formater}.

End Truncation.

